(** * cinder-snapshooter: the expired-snapshot destroyer

    A shallow embedding of [cinder_snapshooter/snapshot_destroyer.py]
    ([process_snapshots] and [check_snapshot_deletion]) together with the
    parts of the Python standard library ([datetime]) and of [tenacity]
    ([Retrying], [stop_after_delay], [wait_random]) that decide its
    behaviour, followed by the properties of the scan. *)

From stdpp Require Import base option list strings gmap.
From Stdlib Require Import ZArith Lia Ascii.

Local Open Scope Z_scope.

(** ** Calendar dates and timestamps (Python's [datetime] module) *)

Module Datetime.

(** [datetime.date]: a proleptic Gregorian calendar date. *)
Record date := Date { year : Z; month : Z; day : Z }.

(** [datetime.datetime] with [tzinfo=datetime.timezone.utc]: every
    timestamp the destroyer builds or reads carries that same tzinfo, so
    the field is left out. *)
Record datetime := DateTime {
  dt_year : Z; dt_month : Z; dt_day : Z;
  dt_hour : Z; dt_minute : Z; dt_second : Z; dt_microsecond : Z
}.

(** [datetime.time.min], as (hour, minute, second, microsecond). *)
Definition time_min : Z * Z * Z * Z := (0, 0, 0, 0).

Definition MINYEAR : Z := 1.
Definition MAXYEAR : Z := 9999.

(** [_is_leap(year)] *)
Definition is_leap (y : Z) : bool :=
  (y mod 4 =? 0) && (negb (y mod 100 =? 0) || (y mod 400 =? 0)).

(** [_days_in_month(year, month)] *)
Definition days_in_month (y m : Z) : Z :=
  if m =? 2 then (if is_leap y then 29 else 28)
  else if (m =? 4) || (m =? 6) || (m =? 9) || (m =? 11) then 30
  else 31.

(** [_check_date_fields]: the range checks of the [date] constructor. *)
Definition check_date_fields (y m d : Z) : bool :=
  (MINYEAR <=? y) && (y <=? MAXYEAR) &&
  (1 <=? m) && (m <=? 12) &&
  (1 <=? d) && (d <=? days_in_month y m).

Definition valid_date (d : date) : Prop :=
  check_date_fields (year d) (month d) (day d) = true.

(** The range checks of the [datetime] constructor. *)
Definition valid_datetime (t : datetime) : Prop :=
  check_date_fields (dt_year t) (dt_month t) (dt_day t) = true /\
  0 <= dt_hour t < 24 /\ 0 <= dt_minute t < 60 /\
  0 <= dt_second t < 60 /\ 0 <= dt_microsecond t < 1000000.

(** One decimal digit of an ISO string. *)
Definition digit (c : Ascii.ascii) : option Z :=
  let n := Z.of_N (Ascii.N_of_ascii c) in
  if (48 <=? n) && (n <=? 57) then Some (n - 48) else None.

(** [parse_digits]: a run of decimal digits, most significant first. *)
Fixpoint parse_digits (acc : Z) (cs : list Ascii.ascii) : option Z :=
  match cs with
  | [] => Some acc
  | c :: cs' =>
      match digit c with
      | Some v => parse_digits (acc * 10 + v) cs'
      | None => None
      end
  end.

(** [datetime.date.fromisoformat(s)] as CPython implements it up to
    version 3.10: exactly the ten characters [YYYY-MM-DD], then the
    range checks of the [date] constructor.  [None] stands for the
    [ValueError] it raises.  (From version 3.11 on the function also
    reads [YYYYMMDD] and the week dates [YYYY-Www], [YYYYWww],
    [YYYY-Www-D] and [YYYYWwwD], strings of 7, 8 or 10 characters.) *)
Definition fromisoformat (s : string) : option date :=
  match String.list_ascii_of_string s with
  | [y1; y2; y3; y4; s1; m1; m2; s2; d1; d2] =>
      if negb (Ascii.eqb s1 "-"%char) || negb (Ascii.eqb s2 "-"%char) then None
      else
        match parse_digits 0 [y1; y2; y3; y4],
              parse_digits 0 [m1; m2],
              parse_digits 0 [d1; d2] with
        | Some y, Some m, Some d =>
            if check_date_fields y m d then Some (Date y m d) else None
        | _, _, _ => None
        end
  | _ => None
  end.

(** [datetime.datetime.combine(date=d, time=t, tzinfo=utc)] *)
Definition combine (d : date) (t : Z * Z * Z * Z) : datetime :=
  let '(h, mi, s, us) := t in
  DateTime (year d) (month d) (day d) h mi s us.

(** [datetime._cmp]: two timestamps with the same tzinfo are compared
    field by field, most significant first. *)
Definition cmp (a b : datetime) : comparison :=
  match dt_year a ?= dt_year b with
  | Eq =>
    match dt_month a ?= dt_month b with
    | Eq =>
      match dt_day a ?= dt_day b with
      | Eq =>
        match dt_hour a ?= dt_hour b with
        | Eq =>
          match dt_minute a ?= dt_minute b with
          | Eq =>
            match dt_second a ?= dt_second b with
            | Eq => dt_microsecond a ?= dt_microsecond b
            | c => c
            end
          | c => c
          end
        | c => c
        end
      | c => c
      end
    | c => c
    end
  | c => c
  end.

(** [a > b] on timestamps ([datetime.__gt__]). *)
Definition gtb (a b : datetime) : bool :=
  match cmp a b with Gt => true | _ => false end.

(** *** The time line

    Python's [toordinal] and the number of microseconds elapsed since
    the start of day 0, used to read a comparison of two timestamps as a
    comparison of two instants. *)

(** [_days_before_year(year)] *)
Definition days_before_year (y : Z) : Z :=
  let y' := y - 1 in
  y' * 365 + y' / 4 - y' / 100 + y' / 400.

(** The extra day of a leap year. *)
Definition leap_day (y : Z) : Z := if is_leap y then 1 else 0.

(** [_days_before_month(year, month)] *)
Definition days_before_month (y m : Z) : Z :=
  let leap := if is_leap y then 1 else 0 in
  if m =? 1 then 0
  else if m =? 2 then 31
  else if m =? 3 then 59 + leap
  else if m =? 4 then 90 + leap
  else if m =? 5 then 120 + leap
  else if m =? 6 then 151 + leap
  else if m =? 7 then 181 + leap
  else if m =? 8 then 212 + leap
  else if m =? 9 then 243 + leap
  else if m =? 10 then 273 + leap
  else if m =? 11 then 304 + leap
  else 334 + leap.

(** [_ymd2ord(year, month, day)] *)
Definition ymd2ord (y m d : Z) : Z :=
  days_before_year y + days_before_month y m + d.

(** Microseconds from the start of ordinal day 0 to the timestamp. *)
Definition instant (t : datetime) : Z :=
  (((ymd2ord (dt_year t) (dt_month t) (dt_day t) * 24 + dt_hour t) * 60
     + dt_minute t) * 60 + dt_second t) * 1000000 + dt_microsecond t.

End Datetime.

(** ** Snapshots, exceptions and the client's environment *)

(** A block-storage snapshot as the destroyer reads it: [snapshot.id] and
    the [snapshot.metadata] dict. *)
Record snapshot := Snapshot {
  snapshot_id : string;
  metadata : gmap string string
}.

(** Exceptions raised by the storage client: [ResourceNotFound], the one
    [check_snapshot_deletion] singles out, and any other failure. *)
Inductive backend_exn :=
| ResourceNotFound
| BackendFailure (what : string).

(** The subclasses of [Exception] that can travel through
    [process_snapshots]. *)
Inductive exn :=
| ValueError                      (* [date.fromisoformat] on a malformed string *)
| TryAgain                        (* [tenacity.TryAgain] *)
| RetryError                      (* [tenacity.RetryError]: the stop condition fired *)
| BackendError (e : backend_exn). (* raised by a call on [os_client] *)

(** What a call on the storage client does: return, or raise. *)
Inductive reply :=
| Returned
| Raised (e : backend_exn).

(** [os_client.block_storage.snapshots(status=...)] is a generator: it
    yields snapshots one at a time and may raise while the next page is
    fetched. *)
Inductive listing :=
| Exhausted
| Yield (s : snapshot) (rest : listing)
| ListingFails (e : backend_exn).

(** The snapshots a listing yields before it ends or fails. *)
Fixpoint items (l : listing) : list snapshot :=
  match l with
  | Exhausted | ListingFails _ => []
  | Yield s rest => s :: items rest
  end.

(** The exception that ends a listing, if one does. *)
Fixpoint failure (l : listing) : option backend_exn :=
  match l with
  | Exhausted => None
  | Yield _ rest => failure rest
  | ListingFails e => Some e
  end.

(** A listing that yields [l] and ends normally. *)
Fixpoint of_list (l : list snapshot) : listing :=
  match l with
  | [] => Exhausted
  | s :: l' => Yield s (of_list l')
  end.

(** A listing that yields [l] and then raises [e]. *)
Fixpoint failing_after (l : list snapshot) (e : backend_exn) : listing :=
  match l with
  | [] => ListingFails e
  | s :: l' => Yield s (failing_after l' e)
  end.

(** Durations and monotonic clock readings are counted in microseconds. *)
Definition second : Z := 1000000.

(** Everything outside the process that [process_snapshots] talks to: the
    storage client [os_client], the system clocks, the random generator
    and [time.sleep].  [W] is the state of that outside world.  The
    clocks are read off the state; calls, random draws and sleeps move it.
    Two readings of a clock with no call, draw or sleep between them
    hence agree: time that passes while the process only computes is not
    modelled, and statements that name a clock reading name the reading
    of the turn they are about.
    The sequence a listing will deliver is the one the client holds when
    the [for] statement starts. *)
Class Env (W : Type) := {
  (** [os_client.block_storage.snapshots(status=status)] *)
  snapshots : string -> W -> listing;
  (** [os_client.block_storage.delete_snapshot(snapshot)] *)
  delete_snapshot : snapshot -> W -> reply * W;
  (** [os_client.block_storage.get_snapshot(snapshot_id)] *)
  get_snapshot : string -> W -> reply * W;
  (** [datetime.datetime.now(datetime.timezone.utc)] *)
  utcnow : W -> Datetime.datetime;
  (** [time.monotonic()] *)
  monotonic : W -> Z;
  (** [random.random()], in millionths *)
  random : W -> Z * W;
  (** [time.sleep(d)] *)
  sleep : Z -> W -> W
}.

(** What the interpreter and the operating system guarantee about the
    clock: it never runs backwards and [time.sleep(d)] suspends for at
    least [d].  [random.random()] is in [[0, 1)]; the upper end is
    allowed here because the float sum [min + r * (max - min)] of
    [wait_random] can round up to [max]. *)
Class EnvLaws (W : Type) `{Env W} := {
  random_range : forall w, 0 <= (random w).1 <= second;
  monotonic_random : forall w, monotonic w <= monotonic (random w).2;
  monotonic_get_snapshot :
    forall i w, monotonic w <= monotonic (get_snapshot i w).2;
  monotonic_sleep : forall d w, monotonic w + d <= monotonic (sleep d w)
}.

(** What a run leaves behind: the structured log and the calls made on
    the storage client, in the order they happened. *)
Inductive event :=
| LogLookingAt (snapshot : string)
    (* debug "Looking at snapshot" *)
| LogDeleting (snapshot : string) (expire_at : Datetime.datetime)
    (* debug "Deleting snapshot" *)
| LogDeleted (snapshot : string) (expire_at : Datetime.datetime)
    (* info "Deleted snapshot" *)
| LogKeeping (snapshot : string) (expire_at : Datetime.datetime)
    (* debug "Keeping snapshot, still valid" *)
| LogFailed (snapshot : string) (exc : exn)
    (* exception "Failed to delete snapshot" *)
| LogProcessed (destroyed_snapshot errors : nat)
    (* info "Processed all snapshots in project" *)
| CallDelete (s : snapshot) (r : reply)
    (* [delete_snapshot(s)] and how it ended *)
| CallGet (snapshot : string) (r : reply)
    (* [get_snapshot(id)] and how it ended *)
| CallSleep (d : Z).
    (* [time.sleep(d)] between two attempts *)

(** ** The destroyer *)

Section Destroyer.

Context {W : Type} `{Env W}.

(** The local variables of [process_snapshots], the trace of the run and
    the outside world. *)
Record state := State {
  destroyed_snapshot : nat;
  errors : nat;
  trace : list event;
  world : W
}.

(** How a piece of Python code ends: normally with a value, by raising,
    or (in the model only) by exhausting the budget of attempts given to
    a retry loop that has not finished yet. *)
Inductive outcome (A : Type) :=
| Done (a : A) (st : state)
| Raise (e : exn) (st : state)
| OutOfFuel (st : state).

Global Arguments Done {A} a st.
Global Arguments Raise {A} e st.
Global Arguments OutOfFuel {A} st.

Definition final_state {A} (o : outcome A) : state :=
  match o with Done _ st | Raise _ st | OutOfFuel st => st end.

Definition M (A : Type) : Type := state -> outcome A.

Definition ret {A} (a : A) : M A := fun st => Done a st.

Definition bind {A B} (m : M A) (k : A -> M B) : M B :=
  fun st =>
    match m st with
    | Done a st' => k a st'
    | Raise e st' => Raise e st'
    | OutOfFuel st' => OutOfFuel st'
    end.

Definition raise {A} (e : exn) : M A := fun st => Raise e st.

(** [try: body  except Exception as e: handler(e)] *)
Definition try_except {A} (body : M A) (handler : exn -> M A) : M A :=
  fun st =>
    match body st with
    | Raise e st' => handler e st'
    | o => o
    end.

Global Instance M_ret : MRet M := @ret.
Global Instance M_bind : MBind M := fun A B k m => bind m k.

Definition emit (e : event) : M unit :=
  fun st => Done tt (State (destroyed_snapshot st) (errors st)
                           (trace st ++ [e]) (world st)).

(** [destroyed_snapshot += 1] *)
Definition incr_destroyed : M unit :=
  fun st => Done tt (State (S (destroyed_snapshot st)) (errors st)
                           (trace st) (world st)).

(** [errors += 1] *)
Definition incr_errors : M unit :=
  fun st => Done tt (State (destroyed_snapshot st) (S (errors st))
                           (trace st) (world st)).

Definition get_state : M state := fun st => Done st st.

(** Read something off the outside world. *)
Definition observe {A} (f : W -> A) : M A :=
  fun st => Done (f (world st)) st.

(** Let the outside world take a step. *)
Definition interact {A} (f : W -> A * W) : M A :=
  fun st =>
    let '(a, w) := f (world st) in
    Done a (State (destroyed_snapshot st) (errors st) (trace st) w).

(** [os_client.block_storage.delete_snapshot(snapshot)] *)
Definition call_delete_snapshot (s : snapshot) : M unit :=
  r ← interact (delete_snapshot s);
  emit (CallDelete s r) ;;
  match r with
  | Returned => ret tt
  | Raised e => raise (BackendError e)
  end.

(** [check_snapshot_deletion(os_client, snapshot_id)]:
    [get_snapshot] raising [ResourceNotFound] is the good news; any
    other exception passes through; the snapshot still being there
    raises [TryAgain]. *)
Definition check_snapshot_deletion (snapshot_id : string) : M bool :=
  r ← interact (get_snapshot snapshot_id);
  emit (CallGet snapshot_id r) ;;
  match r with
  | Raised ResourceNotFound => ret true
  | Raised e => raise (BackendError e)
  | Returned => raise TryAgain
  end.

(** *** [tenacity.Retrying] *)

(** [wait_random(min, max)]:
    [min + random.random() * (max - min)], in microseconds.  The float
    sum can round up to [max]; [random_range] leaves room for it. *)
Definition wait_random (min max : Z) : M Z :=
  r ← interact random;
  ret (min * second + r * (max - min)).

(** [stop_after_delay(max_delay)]:
    [retry_state.seconds_since_start >= max_delay]. *)
Definition stop_after_delay (max_delay : Z) (since_start : Z) : bool :=
  max_delay * second <=? since_start.

(** The default [retry] predicate, [retry_if_exception_type(Exception)]:
    every exception of the model is an [Exception]. *)
Definition retry_if_exception_type (e : exn) : bool := true.

Definition is_explicit_retry (e : exn) : bool :=
  match e with TryAgain => true | _ => false end.

(** [for attempt in Retrying(wait=wait_random(min=1, max=2),
                             stop=stop_after_delay(max_delay)):
        with attempt: body]

    [start_time] is read when the loop is entered.  An attempt that ends
    normally ends the loop.  An attempt that raises is swallowed by the
    attempt manager; then the [retry] predicate, then the [stop]
    condition (raising [RetryError]) are consulted, and otherwise the
    loop sleeps for the random wait and starts the next attempt.
    [fuel] bounds the number of attempts the model unfolds. *)
Fixpoint attempts (fuel : nat) (max_delay start_time : Z) (body : M unit)
  : M unit :=
  match fuel with
  | O => fun st => OutOfFuel st
  | S fuel' =>
      try_except body (fun e =>
        if negb (is_explicit_retry e || retry_if_exception_type e)
        then raise e
        else
          outcome_timestamp ← observe monotonic;
          if stop_after_delay max_delay (outcome_timestamp - start_time)
          then raise RetryError
          else
            d ← wait_random 1 2;
            interact (fun w => (tt, sleep d w)) ;;
            emit (CallSleep d) ;;
            attempts fuel' max_delay start_time body)
  end.

Definition Retrying (fuel : nat) (max_delay : Z) (body : M unit) : M unit :=
  start_time ← observe monotonic;
  attempts fuel max_delay start_time body.

(** *** [process_snapshots] *)

(** [datetime.date.fromisoformat(s)], raising [ValueError]. *)
Definition date_fromisoformat (s : string) : M Datetime.date :=
  match Datetime.fromisoformat s with
  | Some d => ret d
  | None => raise ValueError
  end.

(** The body of the [try] block, for one snapshot. *)
Definition look_at (wait_completion_timeout : Z) (dry_run : bool)
    (fuel : nat) (snapshot : snapshot) : M unit :=
  emit (LogLookingAt (snapshot_id snapshot)) ;;
  match metadata snapshot !! "expire_at" with
  | None => ret tt                                            (* continue *)
  | Some v =>
      d ← date_fromisoformat v;
      let expire_at := Datetime.combine d Datetime.time_min in
      now ← observe utcnow;
      if Datetime.gtb now expire_at then
        emit (LogDeleting (snapshot_id snapshot) expire_at) ;;
        if negb dry_run then
          call_delete_snapshot snapshot ;;
          Retrying fuel wait_completion_timeout (
            check_snapshot_deletion (snapshot_id snapshot) ;;
            emit (LogDeleted (snapshot_id snapshot) expire_at) ;;
            incr_destroyed)
        else ret tt
      else
        emit (LogKeeping (snapshot_id snapshot) expire_at)
  end.

(** One turn of the [for] loop: the [try] block and its
    [except Exception] handler. *)
Definition process_snapshot (wait_completion_timeout : Z) (dry_run : bool)
    (fuel : nat) (snapshot : snapshot) : M unit :=
  try_except (look_at wait_completion_timeout dry_run fuel snapshot)
    (fun e =>
       emit (LogFailed (snapshot_id snapshot) e) ;;
       incr_errors).

(** [for snapshot in <listing>: ...]; the generator raising ends the
    loop with that exception, outside every [try]. *)
Fixpoint for_each (l : listing) (body : snapshot -> M unit) : M unit :=
  match l with
  | Exhausted => ret tt
  | ListingFails e => raise (BackendError e)
  | Yield s rest => body s ;; for_each rest body
  end.

(** [process_snapshots(os_client, wait_completion_timeout, dry_run)] *)
Definition process_snapshots (os_client : W) (wait_completion_timeout : Z)
    (dry_run : bool) (fuel : nat) : outcome bool :=
  (for_each (snapshots "available" os_client)
     (process_snapshot wait_completion_timeout dry_run fuel) ;;
   st ← get_state;
   emit (LogProcessed (destroyed_snapshot st) (errors st)) ;;
   ret (Nat.eqb (errors st) 0))
    (State 0 0 [] os_client).

End Destroyer.

Arguments state W : clear implicits.
Arguments outcome W A : clear implicits.
Arguments M W A : clear implicits.

(** ** A scripted environment

    The fake client of [tests/test_snapshot_destroyer.py]: the clock is
    frozen at [fake_now]; [delete_snapshot] raises for the snapshots whose
    id is in [nok_snapshot]; [get_snapshot] keeps finding those whose id is
    in [nok_snapshot_deletion] and raises [ResourceNotFound] for the
    others.  [time.sleep] moves the monotonic clock by the time asked. *)

Module Fake.

Record fake := Fake {
  fake_listing : listing;
  fake_now : Datetime.datetime;
  fake_clock : Z;
  nok_snapshot : list string;
  nok_snapshot_deletion : list string
}.

Definition mem (i : string) (l : list string) : bool :=
  existsb (String.eqb i) l.

Definition fake_delete (s : snapshot) (w : fake) : reply * fake :=
  (if mem (snapshot_id s) (nok_snapshot w)
   then Raised (BackendFailure "Exception") else Returned, w).

Definition fake_get (i : string) (w : fake) : reply * fake :=
  (if mem i (nok_snapshot_deletion w)
   then Returned else Raised ResourceNotFound, w).

Definition fake_sleep (d : Z) (w : fake) : fake :=
  Fake (fake_listing w) (fake_now w) (fake_clock w + d)
       (nok_snapshot w) (nok_snapshot_deletion w).

#[global] Instance fake_env : Env fake := {|
  snapshots := fun _ w => fake_listing w;
  delete_snapshot := fake_delete;
  get_snapshot := fake_get;
  utcnow := fake_now;
  monotonic := fake_clock;
  random := fun w => (0, w);
  sleep := fake_sleep
|}.

(** 2021-06-01T00:00:00Z *)
Definition june_first : Datetime.datetime :=
  Datetime.DateTime 2021 6 1 0 0 0 0.

Definition snap (i : string) (expire_at : option string) : snapshot :=
  Snapshot i (match expire_at with
              | Some v => {[ "expire_at"%string := v ]}
              | None => ∅
              end).

Definition manual := snap "manual" None.
Definition expired := snap "expired" (Some "2020-01-01"%string).
Definition today := snap "today" (Some "2021-06-01"%string).
Definition future := snap "future" (Some "2099-01-01"%string).
Definition garbled := snap "garbled" (Some "next week"%string).
Definition nok := snap "nok" (Some "2020-01-01"%string).
Definition stuck := snap "stuck" (Some "2020-01-01"%string).

(** The client of the test, listing [l]. *)
Definition client (l : listing) : fake :=
  Fake l june_first 0 ["nok"%string] ["stuck"%string].

End Fake.

(** ** Observations on a run *)

Section Observations.

Context {W : Type} `{Env W}.

Implicit Types (st : state W) (s : snapshot) (l : listing).

Definition with_trace st (evs : list event) : state W :=
  State (destroyed_snapshot st) (errors st) (trace st ++ evs) (world st).

Definition with_world st (w : W) : state W :=
  State (destroyed_snapshot st) (errors st) (trace st) w.

Definition with_destroyed st : state W :=
  State (S (destroyed_snapshot st)) (errors st) (trace st) (world st).

Definition with_error st : state W :=
  State (destroyed_snapshot st) (S (errors st)) (trace st) (world st).

(** The state [process_snapshots] starts from. *)
Definition initial (os_client : W) : state W := State 0 0 [] os_client.

(** The body of the confirmation loop of [look_at]. *)
Definition confirm (i : string) (expire_at : Datetime.datetime) : M W unit :=
  check_snapshot_deletion i ;;
  emit (LogDeleted i expire_at) ;;
  incr_destroyed.

(** Midnight UTC of a calendar date: the timestamp [look_at] compares
    the current time with. *)
Definition midnight (d : Datetime.date) : Datetime.datetime :=
  Datetime.combine d Datetime.time_min.

(** The events a piece of code added to the trace. *)
Definition new_events {A} st (o : outcome W A) : list event :=
  drop (length (trace st)) (trace (final_state o)).

(** Counting the events of a kind. *)
Fixpoint count (p : event -> bool) (tr : list event) : nat :=
  match tr with
  | [] => 0%nat
  | e :: tr' => ((if p e then 1 else 0) + count p tr')%nat
  end.

Definition is_delete_call (e : event) : bool :=
  match e with CallDelete _ _ => true | _ => false end.

Definition is_get_call (e : event) : bool :=
  match e with CallGet _ _ => true | _ => false end.

Definition is_sleep (e : event) : bool :=
  match e with CallSleep _ => true | _ => false end.

(** A [delete_snapshot] call that raised. *)
Definition is_delete_raised (e : event) : bool :=
  match e with CallDelete _ (Raised _) => true | _ => false end.

(** The failure logged for a confirmation that timed out. *)
Definition is_timeout (e : event) : bool :=
  match e with LogFailed _ RetryError => true | _ => false end.

(** The failure logged for an [expire_at] that is not an ISO date. *)
Definition is_malformed (e : event) : bool :=
  match e with LogFailed _ ValueError => true | _ => false end.

Definition is_failed (e : event) : bool :=
  match e with LogFailed _ _ => true | _ => false end.

Definition is_deleted (e : event) : bool :=
  match e with LogDeleted _ _ => true | _ => false end.

Definition is_summary (e : event) : bool :=
  match e with LogProcessed _ _ => true | _ => false end.

(** What [errors] counts, turn after turn. *)
Definition errors_accounted st : Prop :=
  errors st =
  (count is_malformed (trace st) + count is_delete_raised (trace st) +
   count is_timeout (trace st))%nat.

(** A state whose trace has no call on the backend, no sleep and no
    confirmed deletion, with nothing destroyed and the outside world
    [os_client] as it was. *)
Definition quiet (os_client : W) st : Prop :=
  count is_delete_call (trace st) = 0%nat /\
  count is_get_call (trace st) = 0%nat /\
  count is_sleep (trace st) = 0%nat /\
  count is_deleted (trace st) = 0%nat /\
  destroyed_snapshot st = 0%nat /\
  world st = os_client.

(** A lookup that did not report the snapshot gone. *)
Definition still_there (r : reply) : bool :=
  match r with Raised ResourceNotFound => false | _ => true end.

(** The events of an unfinished confirmation of snapshot [i]: lookups
    that did not say "not found", and the sleeps between them. *)
Definition poll_event (i : string) (e : event) : bool :=
  match e with
  | CallGet j r => String.eqb j i && still_there r
  | CallSleep _ => true
  | _ => false
  end.

Definition polling (i : string) (evs : list event) : Prop :=
  Forall (fun e => poll_event i e = true) evs.

(** The states of the outside world that calls on the storage client,
    draws of the random generator and sleeps can lead to. *)
Inductive reachable (w : W) : W -> Prop :=
| reach_here : reachable w w
| reach_delete s w' :
    reachable w w' -> reachable w (delete_snapshot s w').2
| reach_get i w' :
    reachable w w' -> reachable w (get_snapshot i w').2
| reach_random w' :
    reachable w w' -> reachable w (random w').2
| reach_sleep d w' :
    reachable w w' -> reachable w (sleep d w').

(** The ways one turn of the loop of [process_snapshots] can go, from
    the state [st], for the snapshot [s]. *)
Inductive turn (dry_run : bool) s st : outcome W unit -> Prop :=
| turn_skip :
    metadata s !! "expire_at" = None ->
    turn dry_run s st
      (Done tt (with_trace st [LogLookingAt (snapshot_id s)]))
| turn_malformed v :
    metadata s !! "expire_at" = Some v ->
    Datetime.fromisoformat v = None ->
    turn dry_run s st
      (Done tt (with_error (with_trace st
         [LogLookingAt (snapshot_id s);
          LogFailed (snapshot_id s) ValueError])))
| turn_keep v d :
    metadata s !! "expire_at" = Some v ->
    Datetime.fromisoformat v = Some d ->
    Datetime.gtb (utcnow (world st)) (midnight d) = false ->
    turn dry_run s st
      (Done tt (with_trace st
         [LogLookingAt (snapshot_id s);
          LogKeeping (snapshot_id s) (midnight d)]))
| turn_dry_run v d :
    metadata s !! "expire_at" = Some v ->
    Datetime.fromisoformat v = Some d ->
    Datetime.gtb (utcnow (world st)) (midnight d) = true ->
    dry_run = true ->
    turn dry_run s st
      (Done tt (with_trace st
         [LogLookingAt (snapshot_id s);
          LogDeleting (snapshot_id s) (midnight d)]))
| turn_delete_raised v d e w :
    metadata s !! "expire_at" = Some v ->
    Datetime.fromisoformat v = Some d ->
    Datetime.gtb (utcnow (world st)) (midnight d) = true ->
    dry_run = false ->
    delete_snapshot s (world st) = (Raised e, w) ->
    turn dry_run s st
      (Done tt (with_error (with_trace (with_world st w)
         [LogLookingAt (snapshot_id s);
          LogDeleting (snapshot_id s) (midnight d);
          CallDelete s (Raised e);
          LogFailed (snapshot_id s) (BackendError e)])))
| turn_destroyed v d w evs w' :
    metadata s !! "expire_at" = Some v ->
    Datetime.fromisoformat v = Some d ->
    Datetime.gtb (utcnow (world st)) (midnight d) = true ->
    dry_run = false ->
    delete_snapshot s (world st) = (Returned, w) ->
    polling (snapshot_id s) evs ->
    reachable w w' ->
    turn dry_run s st
      (Done tt (with_destroyed (with_trace (with_world st w')
         ([LogLookingAt (snapshot_id s);
           LogDeleting (snapshot_id s) (midnight d);
           CallDelete s Returned] ++ evs ++
          [CallGet (snapshot_id s) (Raised ResourceNotFound);
           LogDeleted (snapshot_id s) (midnight d)]))))
| turn_timeout v d w evs w' :
    metadata s !! "expire_at" = Some v ->
    Datetime.fromisoformat v = Some d ->
    Datetime.gtb (utcnow (world st)) (midnight d) = true ->
    dry_run = false ->
    delete_snapshot s (world st) = (Returned, w) ->
    polling (snapshot_id s) evs ->
    reachable w w' ->
    turn dry_run s st
      (Done tt (with_error (with_trace (with_world st w')
         ([LogLookingAt (snapshot_id s);
           LogDeleting (snapshot_id s) (midnight d);
           CallDelete s Returned] ++ evs ++
          [LogFailed (snapshot_id s) RetryError]))))
| turn_unfinished v d w evs w' :
    metadata s !! "expire_at" = Some v ->
    Datetime.fromisoformat v = Some d ->
    Datetime.gtb (utcnow (world st)) (midnight d) = true ->
    dry_run = false ->
    delete_snapshot s (world st) = (Returned, w) ->
    polling (snapshot_id s) evs ->
    reachable w w' ->
    turn dry_run s st
      (OutOfFuel (with_trace (with_world st w')
         ([LogLookingAt (snapshot_id s);
           LogDeleting (snapshot_id s) (midnight d);
           CallDelete s Returned] ++ evs))).

(** The state right after one lookup of the confirmation loop, with the
    reply of the lookup. *)
Definition after_lookup st (i : string) : reply * state W :=
  let '(r, w) := get_snapshot i (world st) in
  (r, with_trace (with_world st w) [CallGet i r]).

(** The state after the random wait that follows a failed attempt. *)
Definition after_sleep st : state W :=
  let '(r, w) := random (world st) in
  let d := 1 * second + r * (2 - 1) in
  with_trace (with_world st (sleep d w)) [CallSleep d].

(** What a run returned (if it did) and its two counters. *)
Definition summary (o : outcome W bool) : option bool * nat * nat :=
  (match o with Done b _ => Some b | _ => None end,
   destroyed_snapshot (final_state o), errors (final_state o)).

(** A snapshot is expired for good, for a run that starts in the world
    [os_client], when its [expire_at] is a date whose midnight is past
    in every state of the world the run can reach. *)
Definition expired_for_good (os_client : W) s : Prop :=
  exists v d,
    metadata s !! "expire_at" = Some v /\
    Datetime.fromisoformat v = Some d /\
    forall w, reachable os_client w ->
              Datetime.gtb (utcnow w) (midnight d) = true.

(** The fuel that lets a confirmation loop with the given timeout run to
    its end: one attempt per whole second of the timeout, and one more. *)
Definition enough_fuel (wait_completion_timeout : Z) : nat :=
  S (Z.to_nat wait_completion_timeout).

End Observations.

(** ** More observations on a trace *)

Definition is_deleting (e : event) : bool :=
  match e with LogDeleting _ _ => true | _ => false end.

(** A lookup that raised [ResourceNotFound]. *)
Definition is_not_found (e : event) : bool :=
  match e with CallGet _ (Raised ResourceNotFound) => true | _ => false end.

(** The snapshots a run looked at, in the order of its
    "Looking at snapshot" lines. *)
Fixpoint looked_at (tr : list event) : list string :=
  match tr with
  | [] => []
  | LogLookingAt i :: tr' => i :: looked_at tr'
  | _ :: tr' => looked_at tr'
  end.

(** An ASCII letter. *)
Definition is_letter (c : Ascii.ascii) : bool :=
  let n := Z.of_N (Ascii.N_of_ascii c) in
  (65 <=? n) && (n <=? 90) || (97 <=? n) && (n <=? 122).

(** A string that no version of [date.fromisoformat] reads: its length
    is not 7, 8 or 10, or one of its first four characters, where every
    form has the digits of the year, is a letter. *)
Definition not_a_date (v : string) : Prop :=
  ~ In (String.length v) [7; 8; 10]%nat \/
  exists c,
    In c (take 4 (String.list_ascii_of_string v)) /\ is_letter c = true.

(** [date.isoformat()]: ["%04d-%02d-%02d" % (year, month, day)], the
    form in which the test suite (and whoever tags a snapshot) writes
    [expire_at]. *)
Definition digit_char (n : Z) : Ascii.ascii :=
  Ascii.ascii_of_N (Z.to_N (48 + n mod 10)).

Definition isoformat (d : Datetime.date) : string :=
  let y := Datetime.year d in
  let m := Datetime.month d in
  let dd := Datetime.day d in
  String.string_of_list_ascii
    [digit_char (y / 1000); digit_char (y / 100); digit_char (y / 10);
     digit_char y; "-"%char;
     digit_char (m / 10); digit_char m; "-"%char;
     digit_char (dd / 10); digit_char dd].

(** ** The command line entry point *)

Module Cli.

Section Cli.

Context {W : Type} `{Env W}.

(** The parsed arguments [cli] reads.  The cloud session [os_client] is
    taken as the projects it gives access to, each with the state of the
    world its project-scoped client sees. *)
Record args := Args {
  os_client : list W;
  pool_size : nat;
  wait_completion_timeout : Z;
  dry_run : bool
}.

(** How [cli] ends: it returns, [sys.exit(status)] raises [SystemExit],
    or the exception of a project's scan comes out of the driver. *)
Inductive ending :=
| Returns
| SysExit (status : Z)
| Propagates.

(** Modelled from the spec: [run_on_all_projects] of
    [cinder_snapshooter/utils.py], which is not among the sources.  It
    invokes the entry point once per project with the extra arguments and
    returns the ordered collection of the booleans; the pool size only
    bounds how many invocations run at a time, and the workers share no
    state.  What it does when an invocation raises is not specified:
    [None] stands for that. *)
Fixpoint run_on_all_projects (session : list W)
    (entry_point : W -> Z -> bool -> outcome W bool) (pool_size : nat)
    (timeout : Z) (dry_run : bool) : option (list bool) :=
  match session with
  | [] => Some []
  | project :: session' =>
      match entry_point project timeout dry_run with
      | Done b _ =>
          match run_on_all_projects session' entry_point pool_size
                  timeout dry_run with
          | Some results => Some (b :: results)
          | None => None
          end
      | _ => None
      end
  end.

(** Python's [all] on a list of booleans. *)
Definition all (results : list bool) : bool := forallb (fun b => b) results.

(** [cli(args)]: exit with status 1 unless every project succeeded. *)
Definition cli (a : args) (fuel : nat) : ending :=
  match run_on_all_projects (os_client a)
          (fun project timeout dry => process_snapshots project timeout dry fuel)
          (pool_size a) (wait_completion_timeout a) (dry_run a) with
  | Some results => if negb (all results) then SysExit 1 else Returns
  | None => Propagates
  end.

End Cli.

End Cli.

(** * Properties *)

Example fromisoformat_ok :
  Datetime.fromisoformat "2020-02-29" = Some (Datetime.Date 2020 2 29).
Proof. reflexivity. Qed.

Example fromisoformat_bad_day : Datetime.fromisoformat "2021-02-29" = None.
Proof. reflexivity. Qed.

Example fromisoformat_bad_shape : Datetime.fromisoformat "2021-2-9" = None.
Proof. reflexivity. Qed.

#[global] Instance fake_laws : EnvLaws Fake.fake.
Proof.
  split; simpl; intros; unfold second; lia.
Qed.

(** ** The calendar order and the time line *)

Module DatetimeFacts.

Import Datetime.

Lemma check_date_fields_spec y m d :
  check_date_fields y m d = true <->
  1 <= y <= 9999 /\ 1 <= m <= 12 /\ 1 <= d <= days_in_month y m.
Proof.
  unfold check_date_fields, MINYEAR, MAXYEAR.
  rewrite !andb_true_iff, !Z.leb_le. lia.
Qed.

Lemma leap_day_range y : 0 <= leap_day y <= 1.
Proof. unfold leap_day. destruct (is_leap y); lia. Qed.

Lemma days_before_year_succ y :
  days_before_year (y + 1) = days_before_year y + 365 + leap_day y.
Proof.
  unfold days_before_year, leap_day, is_leap.
  replace (y + 1 - 1) with y by lia.
  destruct (Z.eqb_spec (y mod 4) 0), (Z.eqb_spec (y mod 100) 0),
    (Z.eqb_spec (y mod 400) 0); simpl; Z.div_mod_to_equations; lia.
Qed.

Lemma days_before_year_mono y y' :
  y <= y' -> days_before_year y <= days_before_year y'.
Proof. unfold days_before_year. intros. Z.div_mod_to_equations. lia. Qed.

Lemma month_cases m :
  1 <= m <= 12 ->
  m = 1 \/ m = 2 \/ m = 3 \/ m = 4 \/ m = 5 \/ m = 6 \/
  m = 7 \/ m = 8 \/ m = 9 \/ m = 10 \/ m = 11 \/ m = 12.
Proof. lia. Qed.

Lemma days_before_month_next y m m' :
  1 <= m -> m < m' -> m' <= 12 ->
  days_before_month y m + days_in_month y m <= days_before_month y m'.
Proof.
  intros H1 Hlt H12.
  assert (Hm : 1 <= m <= 12) by lia.
  assert (Hm' : 1 <= m' <= 12) by lia.
  apply month_cases in Hm, Hm'.
  unfold days_before_month, days_in_month.
  destruct (is_leap y);
    repeat (destruct Hm as [->|Hm]; [|]); try subst m;
    repeat (destruct Hm' as [->|Hm']; [|]); try subst m';
    simpl; lia.
Qed.

Lemma days_before_month_range y m :
  1 <= m <= 12 ->
  0 <= days_before_month y m /\
  days_before_month y m + days_in_month y m <= 365 + leap_day y.
Proof.
  intros Hm. apply month_cases in Hm.
  unfold days_before_month, days_in_month, leap_day.
  destruct (is_leap y);
    repeat (destruct Hm as [->|Hm]; [|]); try subst m; simpl; lia.
Qed.

(** On well-formed dates the ordinal follows the calendar order. *)
Lemma ymd2ord_lt y m d y' m' d' :
  check_date_fields y m d = true ->
  check_date_fields y' m' d' = true ->
  y < y' \/ (y = y' /\ (m < m' \/ (m = m' /\ d < d'))) ->
  ymd2ord y m d < ymd2ord y' m' d'.
Proof.
  rewrite !check_date_fields_spec. intros (Hy & Hm & Hd) (Hy' & Hm' & Hd') Hlt.
  unfold ymd2ord.
  pose proof (days_before_month_range y m Hm) as [Hb Hb1].
  pose proof (days_before_month_range y' m' Hm') as [Hb' Hb1'].
  destruct Hlt as [Hlt | [-> [Hlt | [-> Hlt]]]].
  - pose proof (days_before_year_succ y) as Hs.
    pose proof (days_before_year_mono (y + 1) y') as Hmono.
    lia.
  - pose proof (days_before_month_next y' m m'). lia.
  - lia.
Qed.

Lemma instant_lt a b :
  valid_datetime a -> valid_datetime b ->
  cmp a b = Lt -> instant a < instant b.
Proof.
  intros (Ha & ? & ? & ? & ?) (Hb & ? & ? & ? & ?).
  unfold cmp, instant.
  destruct (Z.compare_spec (dt_year a) (dt_year b)) as [Ey|Ly|Gy];
    try discriminate.
  2:{ intros _. pose proof (ymd2ord_lt _ _ _ _ _ _ Ha Hb). lia. }
  destruct (Z.compare_spec (dt_month a) (dt_month b)) as [Em|Lm|Gm];
    try discriminate.
  2:{ intros _. pose proof (ymd2ord_lt _ _ _ _ _ _ Ha Hb). lia. }
  destruct (Z.compare_spec (dt_day a) (dt_day b)) as [Ed|Ld|Gd];
    try discriminate.
  2:{ intros _. pose proof (ymd2ord_lt _ _ _ _ _ _ Ha Hb). lia. }
  rewrite Ey, Em, Ed.
  destruct (Z.compare_spec (dt_hour a) (dt_hour b)); try discriminate;
    [|intros _; lia].
  destruct (Z.compare_spec (dt_minute a) (dt_minute b)); try discriminate;
    [|intros _; lia].
  destruct (Z.compare_spec (dt_second a) (dt_second b)); try discriminate;
    [|intros _; lia].
  rewrite Z.compare_lt_iff. lia.
Qed.

Lemma cmp_antisym a b : cmp b a = CompOpp (cmp a b).
Proof.
  unfold cmp.
  rewrite (Z.compare_antisym (dt_year a) (dt_year b)).
  rewrite (Z.compare_antisym (dt_month a) (dt_month b)).
  rewrite (Z.compare_antisym (dt_day a) (dt_day b)).
  rewrite (Z.compare_antisym (dt_hour a) (dt_hour b)).
  rewrite (Z.compare_antisym (dt_minute a) (dt_minute b)).
  rewrite (Z.compare_antisym (dt_second a) (dt_second b)).
  rewrite (Z.compare_antisym (dt_microsecond a) (dt_microsecond b)).
  destruct (dt_year a ?= dt_year b); simpl; try reflexivity.
  destruct (dt_month a ?= dt_month b); simpl; try reflexivity.
  destruct (dt_day a ?= dt_day b); simpl; try reflexivity.
  destruct (dt_hour a ?= dt_hour b); simpl; try reflexivity.
  destruct (dt_minute a ?= dt_minute b); simpl; try reflexivity.
  destruct (dt_second a ?= dt_second b); simpl; try reflexivity.
Qed.

Lemma cmp_eq a b : cmp a b = Eq -> a = b.
Proof.
  unfold cmp. destruct a, b; simpl.
  repeat match goal with
  | |- context [?x ?= ?y] => destruct (Z.compare_spec x y); try discriminate
  end.
  intros _. congruence.
Qed.

(** Comparing two timestamps is comparing two instants. *)
Lemma cmp_instant a b :
  valid_datetime a -> valid_datetime b ->
  cmp a b = (instant a ?= instant b).
Proof.
  intros Ha Hb. symmetry.
  destruct (cmp a b) eqn:Hc.
  - apply cmp_eq in Hc. subst. apply Z.compare_refl.
  - apply Z.compare_lt_iff. by apply instant_lt.
  - apply Z.compare_gt_iff. apply instant_lt; [done..|].
    rewrite cmp_antisym, Hc. reflexivity.
Qed.

Lemma gtb_instant a b :
  valid_datetime a -> valid_datetime b ->
  gtb a b = true <-> instant b < instant a.
Proof.
  intros Ha Hb. unfold gtb. rewrite (cmp_instant a b Ha Hb).
  destruct (Z.compare_spec (instant a) (instant b)); split;
    (discriminate || lia || reflexivity).
Qed.

Lemma gtb_irrefl a : gtb a a = false.
Proof.
  unfold gtb, cmp. by rewrite !Z.compare_refl.
Qed.

Lemma fromisoformat_valid v d :
  fromisoformat v = Some d -> valid_date d.
Proof.
  unfold fromisoformat, valid_date.
  destruct (String.list_ascii_of_string v) as [|y1 [|y2 [|y3 [|y4 [|s1
    [|m1 [|m2 [|s2 [|d1 [|d2 [|]]]]]]]]]]]; try discriminate.
  destruct (negb _ || negb _); try discriminate.
  destruct (parse_digits 0 [y1; y2; y3; y4]) as [y|]; try discriminate.
  destruct (parse_digits 0 [m1; m2]) as [m|]; try discriminate.
  destruct (parse_digits 0 [d1; d2]) as [dd|]; try discriminate.
  destruct (check_date_fields y m dd) eqn:Hc; try discriminate.
  intros [= <-]. exact Hc.
Qed.

End DatetimeFacts.

Section Properties.

Context {W : Type} `{Env W}.

Implicit Types (st : state W) (s : snapshot) (l : listing).

Lemma bind_run {A B} (m : M W A) (k : A -> M W B) st :
  (m ≫= k) st =
  match m st with
  | Done a st' => k a st'
  | Raise e st' => Raise e st'
  | OutOfFuel st' => OutOfFuel st'
  end.
Proof. reflexivity. Qed.

(** One attempt of the confirmation loop, by the reply of the lookup. *)
Lemma confirm_run i expire_at st :
  confirm i expire_at st =
  let '(r, w) := get_snapshot i (world st) in
  let st' := with_trace (with_world st w) [CallGet i r] in
  match r with
  | Raised ResourceNotFound =>
      Done tt (with_destroyed (with_trace st' [LogDeleted i expire_at]))
  | Raised e => Raise (BackendError e) st'
  | Returned => Raise TryAgain st'
  end.
Proof.
  unfold confirm, check_snapshot_deletion.
  rewrite !bind_run. unfold interact.
  destruct (get_snapshot i (world st)) as [r w]. simpl.
  destruct r as [|[|what]]; reflexivity.
Qed.

(** *** Bookkeeping on states *)

Lemma with_trace_nil st : with_trace st [] = st.
Proof. destruct st. unfold with_trace. simpl. by rewrite app_nil_r. Qed.

Lemma with_world_same st : with_world st (world st) = st.
Proof. by destruct st. Qed.

Lemma with_trace_app st evs evs' :
  with_trace (with_trace st evs) evs' = with_trace st (evs ++ evs').
Proof. unfold with_trace. simpl. by rewrite app_assoc. Qed.

Lemma with_world_trace st w evs :
  with_world (with_trace st evs) w = with_trace (with_world st w) evs.
Proof. reflexivity. Qed.

Lemma with_world_world st w w' :
  with_world (with_world st w) w' = with_world st w'.
Proof. reflexivity. Qed.

Lemma world_with_trace st evs : world (with_trace st evs) = world st.
Proof. reflexivity. Qed.

(** *** The confirmation loop, one attempt at a time *)

Lemma attempts_step fuel max_delay start i expire_at st :
  attempts (S fuel) max_delay start (confirm i expire_at) st =
  let '(r, st1) := after_lookup st i in
  if still_there r then
    if stop_after_delay max_delay (monotonic (world st1) - start)
    then Raise RetryError st1
    else attempts fuel max_delay start (confirm i expire_at) (after_sleep st1)
  else Done tt (with_destroyed (with_trace st1 [LogDeleted i expire_at])).
Proof.
  simpl. unfold try_except. rewrite confirm_run. unfold after_lookup.
  destruct (get_snapshot i (world st)) as [r w].
  set (st1 := with_trace (with_world st w) [CallGet i r]).
  assert (Hretry : forall e,
    (if negb (is_explicit_retry e || retry_if_exception_type e)
     then raise e
     else
       outcome_timestamp ← observe monotonic;
       if stop_after_delay max_delay (outcome_timestamp - start)
       then raise RetryError
       else
         d ← wait_random 1 2;
         interact (fun w => (tt, sleep d w)) ;;
         emit (CallSleep d) ;;
         attempts fuel max_delay start (confirm i expire_at)) st1 =
    if stop_after_delay max_delay (monotonic (world st1) - start)
    then Raise RetryError st1
    else attempts fuel max_delay start (confirm i expire_at) (after_sleep st1)).
  { intros e. unfold retry_if_exception_type.
    rewrite orb_true_r. unfold negb.
    rewrite bind_run. unfold observe.
    destruct (stop_after_delay _ _); [reflexivity|].
    unfold wait_random, after_sleep. rewrite !bind_run. unfold interact.
    destruct (random (world st1)) as [rnd w2]. reflexivity. }
  destruct r as [|[|what]]; simpl still_there; cbv iota;
    [apply Hretry | reflexivity | apply Hretry].
Qed.

Ltac state_eq :=
  unfold with_destroyed, with_error, with_trace, with_world; simpl;
  rewrite <- ?app_assoc; simpl; rewrite ?app_nil_r; reflexivity.

Lemma poll_event_get i r :
  still_there r = true -> poll_event i (CallGet i r) = true.
Proof. intros Hr. simpl. by rewrite String.eqb_refl, Hr. Qed.

Lemma reachable_trans (w1 w2 w3 : W) :
  reachable w1 w2 -> reachable w2 w3 -> reachable w1 w3.
Proof.
  intros H12 H23. induction H23; [exact H12|by constructor..].
Qed.

(** Whatever the fuel, the loop ends in one of three ways: the deletion
    is confirmed after some polling, the polling times out, or the
    polling is not over yet. *)
Lemma attempts_cases fuel max_delay start i expire_at : forall st,
  exists evs w,
    polling i evs /\
    reachable (world st) w /\
    (attempts fuel max_delay start (confirm i expire_at) st =
       Done tt (with_destroyed (with_trace (with_world st w)
         (evs ++ [CallGet i (Raised ResourceNotFound);
                  LogDeleted i expire_at])))
     \/ attempts fuel max_delay start (confirm i expire_at) st =
          Raise RetryError (with_trace (with_world st w) evs)
     \/ attempts fuel max_delay start (confirm i expire_at) st =
          OutOfFuel (with_trace (with_world st w) evs)).
Proof.
  induction fuel as [|fuel IH]; intros st.
  - exists [], (world st). split; [constructor|]. split; [constructor|].
    right; right. simpl. by rewrite with_world_same, with_trace_nil.
  - rewrite attempts_step. unfold after_lookup.
    pose proof (reach_get (world st) i (world st) (reach_here _)) as Hget.
    destruct (get_snapshot i (world st)) as [r w1]. simpl in Hget.
    destruct (still_there r) eqn:Hr.
    + destruct (stop_after_delay _ _).
      * exists [CallGet i r], w1. split.
        { repeat constructor. by apply poll_event_get. }
        split; [exact Hget|]. right; left. reflexivity.
      * unfold after_sleep. rewrite world_with_trace. simpl world.
        pose proof (reach_random (world st) w1 Hget) as Hrnd.
        destruct (random w1) as [rnd w2]. simpl in Hrnd.
        set (d := 1 * second + rnd * (2 - 1)).
        pose proof (reach_sleep (world st) d w2 Hrnd) as Hsleep.
        set (st2 := with_trace (with_world _ (sleep d w2)) [CallSleep d]).
        destruct (IH st2) as (evs & w & Hpoll & Hreach & Hcases).
        exists (CallGet i r :: CallSleep d :: evs), w. split.
        { constructor; [by apply poll_event_get|].
          constructor; [reflexivity|exact Hpoll]. }
        split; [exact (reachable_trans _ _ _ Hsleep Hreach)|].
        destruct Hcases as [Hc | [Hc | Hc]];
          [left | right; left | right; right]; rewrite Hc; f_equal; state_eq.
    + exists [], w1. split; [constructor|]. split; [exact Hget|]. left.
      destruct r as [|[|what]]; try discriminate. f_equal. state_eq.
Qed.

(** *** One turn of the loop *)

Lemma bind_emit {B} e (k : unit -> M W B) st :
  (emit e ≫= k) st = k tt (with_trace st [e]).
Proof. reflexivity. Qed.

Lemma bind_ret {A B} (a : A) (k : A -> M W B) st : (ret a ≫= k) st = k a st.
Proof. reflexivity. Qed.

Lemma bind_raise {A B} e (k : A -> M W B) st :
  (raise e ≫= k) st = Raise e st.
Proof. reflexivity. Qed.

Lemma bind_observe {A B} (f : W -> A) (k : A -> M W B) st :
  (observe f ≫= k) st = k (f (world st)) st.
Proof. reflexivity. Qed.

Lemma bind_interact {A B} (f : W -> A * W) (k : A -> M W B) st :
  (interact f ≫= k) st = k (f (world st)).1 (with_world st (f (world st)).2).
Proof.
  rewrite bind_run. unfold interact. by destruct (f (world st)).
Qed.

Lemma turn_eq dry_run s st o o' :
  turn dry_run s st o -> o = o' -> turn dry_run s st o'.
Proof. by intros Ht <-. Qed.

(** Every turn of the loop of [process_snapshots] goes one of the eight
    ways of [turn]. *)
Lemma process_snapshot_turn timeout dry_run fuel s st :
  turn dry_run s st (process_snapshot timeout dry_run fuel s st).
Proof.
  unfold process_snapshot, try_except, look_at.
  rewrite bind_emit.
  destruct (metadata s !! "expire_at") as [v|] eqn:Hv.
  2:{ eapply turn_eq; [by apply turn_skip|reflexivity]. }
  unfold date_fromisoformat.
  destruct (Datetime.fromisoformat v) as [d|] eqn:Hd.
  2:{ eapply turn_eq; [by eapply turn_malformed|].
      rewrite bind_raise, bind_emit. unfold incr_errors. f_equal. state_eq. }
  rewrite bind_ret, bind_observe, world_with_trace.
  fold (midnight d).
  destruct (Datetime.gtb (utcnow (world st)) (midnight d)) eqn:Hgt.
  2:{ eapply turn_eq; [by eapply turn_keep|].
      unfold emit. f_equal. state_eq. }
  rewrite bind_emit.
  destruct dry_run; unfold negb.
  { eapply turn_eq; [by eapply turn_dry_run|].
    unfold ret. f_equal. state_eq. }
  rewrite bind_run. unfold call_delete_snapshot.
  rewrite bind_interact, !world_with_trace.
  destruct (delete_snapshot s (world st)) as [r w] eqn:Hdel.
  rewrite bind_emit. cbn [fst snd].
  destruct r as [|e].
  2:{ eapply turn_eq; [by eapply turn_delete_raised|].
      unfold raise. rewrite bind_emit. unfold incr_errors. f_equal. state_eq. }
  unfold ret at 1. unfold Retrying. rewrite bind_observe.
  fold (confirm (snapshot_id s) (midnight d)).
  match goal with
  | |- context [attempts fuel timeout ?t0 _ ?st0] =>
      destruct (attempts_cases fuel timeout t0 (snapshot_id s) (midnight d) st0)
        as (evs & w' & Hpoll & Hreach & [Hc | [Hc | Hc]]); rewrite Hc
  end.
  - eapply turn_eq; [by eapply (turn_destroyed _ _ _ v d w evs w')|].
    f_equal. state_eq.
  - eapply turn_eq; [by eapply (turn_timeout _ _ _ v d w evs w')|].
    rewrite bind_emit. unfold incr_errors. f_equal. state_eq.
  - eapply turn_eq; [by eapply (turn_unfinished _ _ _ v d w evs w')|].
    f_equal. state_eq.
Qed.

Lemma polling_In i evs e :
  polling i evs -> In e evs -> poll_event i e = true.
Proof.
  unfold polling. rewrite Forall_forall. intros Hall Hin.
  apply Hall. by apply list_elem_of_In.
Qed.

Lemma new_events_app {A} st (o : outcome W A) evs :
  trace (final_state o) = trace st ++ evs -> new_events st o = evs.
Proof.
  intros Ht. unfold new_events. rewrite Ht. apply drop_app_length.
Qed.

(** A turn never lets an exception out. *)
Lemma turn_no_raise dry_run s st o :
  turn dry_run s st o -> forall e st', o <> Raise e st'.
Proof. intros Ht e st'. destruct Ht; discriminate. Qed.

(** *** The loop *)

Lemma for_each_yield s l (body : snapshot -> M W unit) st :
  for_each (Yield s l) body st =
  match body s st with
  | Done _ st' => for_each l body st'
  | Raise e st' => Raise e st'
  | OutOfFuel st' => OutOfFuel st'
  end.
Proof. reflexivity. Qed.

(** A property of the state that every turn preserves holds when the
    loop stops, however it stops. *)
Lemma for_each_invariant (P : state W -> Prop) timeout dry_run fuel l :
  (forall s st o, P st -> turn dry_run s st o -> P (final_state o)) ->
  forall st, P st ->
  P (final_state (for_each l (process_snapshot timeout dry_run fuel) st)).
Proof.
  intros Hstep. induction l as [|s rest IH|e]; intros st HP;
    [exact HP| |exact HP].
  rewrite for_each_yield.
  pose proof (process_snapshot_turn timeout dry_run fuel s st) as Ht.
  pose proof (Hstep s st _ HP Ht) as HP'.
  destruct (process_snapshot timeout dry_run fuel s st) as [[] st'|e st'|st'];
    [by apply IH|exact HP'|exact HP'].
Qed.

(** [process_snapshots] by the outcome of its loop. *)
Lemma process_snapshots_run os_client timeout dry_run fuel :
  process_snapshots os_client timeout dry_run fuel =
  match for_each (snapshots "available" os_client)
          (process_snapshot timeout dry_run fuel) (initial os_client) with
  | Done _ st =>
      Done (Nat.eqb (errors st) 0)
        (with_trace st [LogProcessed (destroyed_snapshot st) (errors st)])
  | Raise e st => Raise e st
  | OutOfFuel st => OutOfFuel st
  end.
Proof.
  unfold process_snapshots. rewrite bind_run. fold (initial os_client).
  by destruct (for_each _ _ _) as [[] st|e st|st].
Qed.

(** The same for a whole run: the property must also survive the
    summary logged at the end. *)
Lemma process_snapshots_invariant (P : state W -> Prop)
    os_client timeout dry_run fuel :
  (forall s st o, P st -> turn dry_run s st o -> P (final_state o)) ->
  (forall st d e, P st -> P (with_trace st [LogProcessed d e])) ->
  P (initial os_client) ->
  P (final_state (process_snapshots os_client timeout dry_run fuel)).
Proof.
  intros Hstep Hsum H0. rewrite process_snapshots_run.
  pose proof (for_each_invariant P timeout dry_run fuel
                (snapshots "available" os_client) Hstep _ H0) as HP.
  destruct (for_each _ _ _) as [[] st|e st|st]; simpl in *; auto.
Qed.

(** Every delete request of a run is for a snapshot that carries an
    [expire_at]. *)
Lemma deletes_have_expire_at os_client timeout dry_run fuel s r :
  In (CallDelete s r)
     (trace (final_state (process_snapshots os_client timeout dry_run fuel))) ->
  is_Some (metadata s !! "expire_at").
Proof.
  revert s r.
  apply (process_snapshots_invariant
           (fun st => forall s r, In (CallDelete s r) (trace st) ->
                                  is_Some (metadata s !! "expire_at"))).
  - intros s st o HP Ht s' r Hin.
    destruct Ht; simpl in Hin; rewrite ?in_app_iff in Hin; simpl in Hin;
      rewrite ?in_app_iff in Hin; simpl in Hin;
      repeat match goal with
      | Hor : _ \/ _ |- _ => destruct Hor
      | Hf : False |- _ => destruct Hf
      | Heq : _ = CallDelete _ _ |- _ => inversion Heq; subst; clear Heq
      | Hp : polling _ ?evs, Hi : In _ ?evs |- _ =>
          apply (polling_In _ _ _ Hp) in Hi; discriminate
      end; eauto.
  - intros st d e HP s r Hin. simpl in Hin. rewrite in_app_iff in Hin.
    destruct Hin as [Hin|[Heq|[]]]; [eauto|discriminate].
  - intros s r [].
Qed.

(** C5. A snapshot whose metadata has no [expire_at] key only gets its
    "Looking at snapshot" line: the turn spent on it leaves both
    counters and the outside world as they were, whatever [dry_run] and
    the clock say, and no run of [process_snapshots] ever asks the
    backend to delete it. *)
Theorem no_expire_at_is_left_alone timeout dry_run fuel s :
  metadata s !! "expire_at" = None ->
  (forall st,
     process_snapshot timeout dry_run fuel s st =
     Done tt (with_trace st [LogLookingAt (snapshot_id s)])) /\
  (forall os_client r,
     ~ In (CallDelete s r)
          (trace (final_state
             (process_snapshots os_client timeout dry_run fuel)))).
Proof.
  intros Hnone. split.
  - intros st.
    unfold process_snapshot, try_except, look_at.
    by rewrite bind_emit, Hnone.
  - intros os_client r Hin.
    apply deletes_have_expire_at in Hin.
    rewrite Hnone in Hin. by destruct Hin.
Qed.

(** *** Looking for an event in the events of a turn *)

Ltac in_cases Hin :=
  repeat (rewrite in_app_iff in Hin || simpl in Hin);
  repeat match goal with
  | Hor : _ \/ _ |- _ => destruct Hor
  | Hf : False |- _ => destruct Hf
  | Hp : polling _ ?evs, Hi : In _ ?evs |- _ =>
      apply (polling_In _ _ _ Hp) in Hi; discriminate Hi
  | Heq : @eq event _ _ |- _ => discriminate Heq
  end.

Ltac in_here := rewrite ?in_app_iff; simpl; tauto.

Lemma midnight_valid v d :
  Datetime.fromisoformat v = Some d -> Datetime.valid_datetime (midnight d).
Proof.
  intros Hd. apply DatetimeFacts.fromisoformat_valid in Hd.
  unfold Datetime.valid_date in Hd.
  unfold midnight, Datetime.valid_datetime. simpl. repeat split; (done || lia).
Qed.

(** The decision of a turn: expired exactly when the current time is
    strictly past midnight UTC of the date. *)
Lemma expiry_decision timeout dry_run fuel s st v d :
  metadata s !! "expire_at" = Some v ->
  Datetime.fromisoformat v = Some d ->
  Datetime.valid_datetime (utcnow (world st)) ->
  let now := utcnow (world st) in
  let evs := new_events st (process_snapshot timeout dry_run fuel s st) in
  (In (LogDeleting (snapshot_id s) (midnight d)) evs <->
     Datetime.instant (midnight d) < Datetime.instant now) /\
  (In (LogKeeping (snapshot_id s) (midnight d)) evs <->
     Datetime.instant now <= Datetime.instant (midnight d)) /\
  ((exists r, In (CallDelete s r) evs) <->
     dry_run = false /\
     Datetime.instant (midnight d) < Datetime.instant now) /\
  (now = midnight d ->
     process_snapshot timeout dry_run fuel s st =
     Done tt (with_trace st [LogLookingAt (snapshot_id s);
                             LogKeeping (snapshot_id s) (midnight d)])).
Proof.
  intros Hv Hd Hnow now evs.
  pose proof (midnight_valid v d Hd) as Hmid.
  pose proof (DatetimeFacts.gtb_instant now (midnight d) Hnow Hmid) as Hgtb.
  pose proof (process_snapshot_turn timeout dry_run fuel s st) as Ht.
  subst evs.
  destruct Ht; simplify_eq;
    (erewrite new_events_app by (simpl; reflexivity));
    match goal with
    | Hg : Datetime.gtb _ _ = true |- _ =>
        pose proof (proj1 Hgtb Hg) as Hlt
    | Hg : Datetime.gtb _ _ = false |- _ =>
        assert (Hle : Datetime.instant now <= Datetime.instant (midnight d))
          by (destruct (Z.le_gt_cases (Datetime.instant now)
                          (Datetime.instant (midnight d))) as [|Hlt];
              [done|apply Hgtb in Hlt; fold now in Hg; congruence])
    end.
  all: repeat match goal with
    | |- _ /\ _ => split
    | |- In _ _ <-> _ =>
        split;
        [ intros Hin; in_cases Hin; simplify_eq; lia
        | intros Hx; (lia || in_here) ]
    | |- (exists r, _) <-> _ =>
        split;
        [ intros [r Hin]; in_cases Hin; simplify_eq; split; (done || lia)
        | intros [Hdr Hx]; (lia || done || (eexists; in_here)) ]
    | |- _ = _ -> _ =>
        intros Heq; subst now;
        (reflexivity || (rewrite Heq in *; lia))
    end.
Qed.

(** *** The result and the counters *)

(** C7. [process_snapshots] returns [True] exactly when [errors] is zero
    at the end of the scan, the value the summary line reports; two runs
    that end with the same [errors] return the same boolean, whatever
    they destroyed. *)
Theorem returns_true_iff_no_errors os_client timeout dry_run fuel b st :
  process_snapshots os_client timeout dry_run fuel = Done b st ->
  (b = true <-> errors st = 0%nat) /\
  (exists tr,
     trace st = tr ++ [LogProcessed (destroyed_snapshot st) (errors st)]) /\
  (forall os_client' timeout' dry_run' fuel' b' st',
     process_snapshots os_client' timeout' dry_run' fuel' = Done b' st' ->
     errors st' = errors st -> b' = b).
Proof.
  assert (Hret : forall c t dr f b0 st0,
    process_snapshots c t dr f = Done b0 st0 ->
    b0 = Nat.eqb (errors st0) 0 /\
    exists tr, trace st0 =
      tr ++ [LogProcessed (destroyed_snapshot st0) (errors st0)]).
  { intros c t dr f b0 st0. rewrite process_snapshots_run.
    destruct (for_each _ _ _) as [[] st1|e st1|st1]; try discriminate.
    intros [= <- <-]. split; [reflexivity|]. by exists (trace st1). }
  intros Hrun. destruct (Hret _ _ _ _ _ _ Hrun) as [-> Htr].
  split; [apply Nat.eqb_eq|]. split; [exact Htr|].
  intros c t dr f b' st' Hrun' Heq.
  destruct (Hret _ _ _ _ _ _ Hrun') as [-> _]. by rewrite Heq.
Qed.

Lemma count_app p evs evs' :
  count p (evs ++ evs') = (count p evs + count p evs')%nat.
Proof. induction evs as [|e evs IH]; simpl; [reflexivity|]. rewrite IH. lia. Qed.

(** The events of a polling are none of the events [p] counts, when [p]
    is false of lookups and sleeps. *)
Lemma count_polling p i evs :
  polling i evs ->
  (forall e, poll_event i e = true -> p e = false) ->
  count p evs = 0%nat.
Proof.
  intros Hpoll Hp. induction Hpoll as [|e evs He _ IH]; simpl; [reflexivity|].
  by rewrite (Hp e He), IH.
Qed.

Lemma poll_event_cases i e :
  poll_event i e = true ->
  (exists r, e = CallGet i r /\ still_there r = true) \/ (exists d, e = CallSleep d).
Proof.
  destruct e; simpl; try discriminate; [|by right; eexists].
  intros [Hi Hr]%andb_true_iff. apply String.eqb_eq in Hi as ->.
  left. by eexists.
Qed.

Ltac count_events :=
  repeat (rewrite count_app || simpl);
  repeat match goal with
  | Hp : polling ?i ?evs |- context [count ?p ?evs] =>
      rewrite (count_polling p i evs Hp)
        by (let e := fresh in let He := fresh in
            intros e He; apply poll_event_cases in He as [(? & -> & ?)|(? & ->)];
            reflexivity)
  end;
  simpl.

(** A turn moves at most one counter, by one: a confirmed deletion logs
    no failure, and a failure logs no confirmed deletion. *)
Lemma turn_counters dry_run s st o :
  turn dry_run s st o ->
  let st' := final_state o in
  (destroyed_snapshot st' = destroyed_snapshot st /\
   errors st' = errors st /\
   count is_deleted (new_events st o) = 0%nat /\
   count is_failed (new_events st o) = 0%nat) \/
  (destroyed_snapshot st' = S (destroyed_snapshot st) /\
   errors st' = errors st /\
   count is_deleted (new_events st o) = 1%nat /\
   count is_failed (new_events st o) = 0%nat) \/
  (destroyed_snapshot st' = destroyed_snapshot st /\
   errors st' = S (errors st) /\
   count is_deleted (new_events st o) = 0%nat /\
   count is_failed (new_events st o) = 1%nat).
Proof.
  intros Ht. simpl.
  destruct Ht; (erewrite new_events_app by (simpl; reflexivity));
    count_events;
    [left|right;right|left|left|right;right|right;left|right;right|left];
    repeat split; reflexivity.
Qed.

(** The deletion request of a turn is the call on the storage client:
    the reply recorded is the client's, the world goes on from the state
    the call left, and a turn that requests nothing leaves the world as
    it was. *)
Lemma expiry_request timeout dry_run fuel s st v d :
  metadata s !! "expire_at" = Some v ->
  Datetime.fromisoformat v = Some d ->
  let o := process_snapshot timeout dry_run fuel s st in
  let evs := new_events st o in
  let request := delete_snapshot s (world st) in
  (Datetime.gtb (utcnow (world st)) (midnight d) = true ->
   dry_run = false ->
   In (CallDelete s request.1) evs /\
   count is_delete_call evs = 1%nat /\
   reachable request.2 (world (final_state o)) /\
   forall e,
     request.1 = Raised e ->
     o = Done tt (with_error (with_trace (with_world st request.2)
           [LogLookingAt (snapshot_id s);
            LogDeleting (snapshot_id s) (midnight d);
            CallDelete s (Raised e);
            LogFailed (snapshot_id s) (BackendError e)]))) /\
  (Datetime.gtb (utcnow (world st)) (midnight d) = false \/ dry_run = true ->
   world (final_state o) = world st /\
   count is_delete_call evs = 0%nat).
Proof.
  intros Hv Hd. cbv zeta.
  pose proof (process_snapshot_turn timeout dry_run fuel s st) as Ht.
  destruct Ht; simplify_eq;
    (erewrite new_events_app by (simpl; reflexivity)).
  - (* kept *)
    split; [intros Hgt; congruence|].
    intros _. split; [reflexivity|count_events; reflexivity].
  - (* dry run *)
    split; [intros _ Hdry; discriminate|].
    intros _. split; [reflexivity|count_events; reflexivity].
  - (* the request raised *)
    split; [|intros [Hgt|Hdry]; congruence].
    intros _ _.
    match goal with
    | Hdel : delete_snapshot s (world st) = _ |- _ => rewrite Hdel
    end. cbn [fst snd].
    split; [in_here|]. split; [count_events; reflexivity|].
    split; [apply reach_here|].
    intros e' He'. by simplify_eq.
  - (* confirmed *)
    split; [|intros [Hgt|Hdry]; congruence].
    intros _ _.
    match goal with
    | Hdel : delete_snapshot s (world st) = _ |- _ => rewrite Hdel
    end. cbn [fst snd].
    split; [in_here|]. split; [count_events; reflexivity|].
    split; [assumption|]. intros e' He'. discriminate.
  - (* timed out *)
    split; [|intros [Hgt|Hdry]; congruence].
    intros _ _.
    match goal with
    | Hdel : delete_snapshot s (world st) = _ |- _ => rewrite Hdel
    end. cbn [fst snd].
    split; [in_here|]. split; [count_events; reflexivity|].
    split; [assumption|]. intros e' He'. discriminate.
  - (* not finished *)
    split; [|intros [Hgt|Hdry]; congruence].
    intros _ _.
    match goal with
    | Hdel : delete_snapshot s (world st) = _ |- _ => rewrite Hdel
    end. cbn [fst snd].
    split; [in_here|]. split; [count_events; reflexivity|].
    split; [assumption|]. intros e' He'. discriminate.
Qed.

(** C1. For a snapshot whose [expire_at] is a well-formed ISO date, the
    turn of [process_snapshots] spent on it logs "Deleting snapshot"
    exactly when the current UTC time is strictly later than midnight
    UTC of that date, and logs "Keeping snapshot" otherwise; it asks the
    backend to delete the snapshot exactly when, moreover, [dry_run] is
    false; and when the current time is that midnight itself, the
    snapshot is kept.  The request is the one call
    [os_client.block_storage.delete_snapshot(snapshot)] made in the state
    the turn started in: the reply recorded is the client's, the outside
    world goes on from the state that call left, and when the client
    raises, the turn ends there with the failure counted.  A turn that
    does not request the deletion leaves the outside world as it was. *)
Theorem expired_iff_past_midnight timeout dry_run fuel s st v d :
  metadata s !! "expire_at" = Some v ->
  Datetime.fromisoformat v = Some d ->
  Datetime.valid_datetime (utcnow (world st)) ->
  let now := utcnow (world st) in
  let o := process_snapshot timeout dry_run fuel s st in
  let evs := new_events st o in
  let request := delete_snapshot s (world st) in
  (In (LogDeleting (snapshot_id s) (midnight d)) evs <->
     Datetime.instant (midnight d) < Datetime.instant now) /\
  (In (LogKeeping (snapshot_id s) (midnight d)) evs <->
     Datetime.instant now <= Datetime.instant (midnight d)) /\
  ((exists r, In (CallDelete s r) evs) <->
     dry_run = false /\
     Datetime.instant (midnight d) < Datetime.instant now) /\
  (now = midnight d ->
     process_snapshot timeout dry_run fuel s st =
     Done tt (with_trace st [LogLookingAt (snapshot_id s);
                             LogKeeping (snapshot_id s) (midnight d)])) /\
  (dry_run = false ->
   Datetime.instant (midnight d) < Datetime.instant now ->
   In (CallDelete s request.1) evs /\
   count is_delete_call evs = 1%nat /\
   reachable request.2 (world (final_state o)) /\
   forall e,
     request.1 = Raised e ->
     o = Done tt (with_error (with_trace (with_world st request.2)
           [LogLookingAt (snapshot_id s);
            LogDeleting (snapshot_id s) (midnight d);
            CallDelete s (Raised e);
            LogFailed (snapshot_id s) (BackendError e)]))) /\
  (dry_run = true \/
   Datetime.instant now <= Datetime.instant (midnight d) ->
   world (final_state o) = world st /\
   count is_delete_call evs = 0%nat).
Proof.
  intros Hv Hd Hnow now o evs request.
  pose proof (expiry_decision timeout dry_run fuel s st v d Hv Hd Hnow)
    as (H1 & H2 & H3 & H4).
  pose proof (expiry_request timeout dry_run fuel s st v d Hv Hd)
    as [Hreq Hnone].
  pose proof (DatetimeFacts.gtb_instant now (midnight d) Hnow
                (midnight_valid v d Hd)) as Hgtb.
  split; [exact H1|]. split; [exact H2|]. split; [exact H3|].
  split; [exact H4|]. split.
  - intros Hdry Hlt. apply Hreq; [by apply Hgtb|exact Hdry].
  - intros [Hdry|Hle]; apply Hnone; [by right|left].
    destruct (Datetime.gtb (utcnow (world st)) (midnight d)) eqn:Hg;
      [|reflexivity].
    apply Hgtb in Hg. fold now in Hle. lia.
Qed.

Lemma for_each_counters timeout dry_run fuel l : forall st,
  let st' := final_state
               (for_each l (process_snapshot timeout dry_run fuel) st) in
  (destroyed_snapshot st' + errors st' <=
   destroyed_snapshot st + errors st + length (items l))%nat.
Proof.
  induction l as [|s rest IH|e]; intros st; cbv zeta;
    [simpl; lia| |simpl; lia].
  rewrite for_each_yield.
  pose proof (process_snapshot_turn timeout dry_run fuel s st) as Ht.
  apply turn_counters in Ht. cbv zeta in Ht.
  destruct (process_snapshot timeout dry_run fuel s st) as [[] st1|e st1|st1];
    [specialize (IH st1); cbv zeta in IH|..]; simpl in *; lia.
Qed.

(** C9. Each turn of the loop moves at most one of the two counters, by
    one, and never both (a confirmed deletion comes with no logged
    failure); so at the end of a run over [n] snapshots
    [destroyed_snapshot + errors] is at most [n]. *)
Theorem one_counter_per_snapshot os_client timeout dry_run fuel :
  (let st' := final_state (process_snapshots os_client timeout dry_run fuel) in
   (destroyed_snapshot st' + errors st' <=
    length (items (snapshots "available" os_client)))%nat) /\
  (forall s st,
     let o := process_snapshot timeout dry_run fuel s st in
     let st' := final_state o in
     (destroyed_snapshot st' = destroyed_snapshot st /\
      errors st' = errors st /\
      count is_deleted (new_events st o) = 0%nat /\
      count is_failed (new_events st o) = 0%nat) \/
     (destroyed_snapshot st' = S (destroyed_snapshot st) /\
      errors st' = errors st /\
      count is_deleted (new_events st o) = 1%nat /\
      count is_failed (new_events st o) = 0%nat) \/
     (destroyed_snapshot st' = destroyed_snapshot st /\
      errors st' = S (errors st) /\
      count is_deleted (new_events st o) = 0%nat /\
      count is_failed (new_events st o) = 1%nat)).
Proof.
  split.
  - rewrite process_snapshots_run.
    pose proof (for_each_counters timeout dry_run fuel
                  (snapshots "available" os_client) (initial os_client)) as Hc.
    simpl in Hc.
    destruct (for_each _ _ _) as [[] st1|e st1|st1]; simpl in *; lia.
  - intros s st. apply (turn_counters dry_run s st).
    apply process_snapshot_turn.
Qed.

Lemma turn_errors_accounted dry_run s st o :
  errors_accounted st -> turn dry_run s st o ->
  errors_accounted (final_state o).
Proof.
  unfold errors_accounted. intros Hacc Ht.
  destruct Ht as [| | | |? ? [|what]| | |]; simpl; count_events; lia.
Qed.

Lemma process_snapshots_errors_accounted os_client timeout dry_run fuel :
  errors_accounted
    (final_state (process_snapshots os_client timeout dry_run fuel)).
Proof.
  apply process_snapshots_invariant.
  - intros s st o. apply turn_errors_accounted.
  - unfold errors_accounted. intros st d e Hacc. simpl. count_events. lia.
  - reflexivity.
Qed.


(** *** Dry runs *)

Lemma turn_dry_run_quiet os_client s st o :
  quiet os_client st -> turn true s st o ->
  quiet os_client (final_state o) /\ exists st', o = Done tt st'.
Proof.
  unfold quiet. intros (H1 & H2 & H3 & H4 & H5 & H6) Ht.
  destruct Ht; try discriminate; simpl; count_events;
    rewrite ?H1, ?H2, ?H3, ?H4;
    (split; [repeat split; (assumption || lia)|by eexists]).
Qed.

(** In a dry run the loop runs to the end of the listing, without
    consuming any fuel. *)
Lemma for_each_dry_run timeout fuel os_client l : forall st,
  quiet os_client st ->
  exists st',
    quiet os_client st' /\
    for_each l (process_snapshot timeout true fuel) st =
    match failure l with
    | None => Done tt st'
    | Some e => Raise (BackendError e) st'
    end.
Proof.
  induction l as [|s rest IH|e]; intros st Hst; simpl failure.
  - by exists st.
  - rewrite for_each_yield.
    pose proof (process_snapshot_turn timeout true fuel s st) as Ht.
    destruct (turn_dry_run_quiet _ _ _ _ Hst Ht) as [Hst' [st' Ho]].
    rewrite Ho in *. simpl in Hst'. by apply IH.
  - by exists st.
Qed.

Lemma process_snapshots_dry_run os_client timeout fuel :
  quiet os_client (final_state (process_snapshots os_client timeout true fuel)).
Proof.
  apply process_snapshots_invariant.
  - intros s st o Hq Ht. by apply (turn_dry_run_quiet os_client s st o).
  - unfold quiet. intros st d e (H1 & H2 & H3 & H4 & H5 & H6).
    simpl. count_events.
    rewrite ?H1, ?H2, ?H3, ?H4; repeat split; (assumption || lia).
  - repeat split; reflexivity.
Qed.

(** C6. With [dry_run] true a run makes no call to [delete_snapshot],
    never enters the confirmation loop (no [get_snapshot], no sleep),
    leaves [destroyed_snapshot] at zero and the outside world as it
    found it, and needs no fuel; the turn spent on an expired snapshot
    only logs "Looking at snapshot" and "Deleting snapshot". *)
Theorem dry_run_deletes_nothing os_client timeout fuel :
  (let o := process_snapshots os_client timeout true fuel in
   count is_delete_call (trace (final_state o)) = 0%nat /\
   count is_get_call (trace (final_state o)) = 0%nat /\
   count is_sleep (trace (final_state o)) = 0%nat /\
   count is_deleted (trace (final_state o)) = 0%nat /\
   destroyed_snapshot (final_state o) = 0%nat /\
   world (final_state o) = os_client /\
   forall st, o <> OutOfFuel st) /\
  (forall s st v d,
     metadata s !! "expire_at" = Some v ->
     Datetime.fromisoformat v = Some d ->
     Datetime.gtb (utcnow (world st)) (midnight d) = true ->
     process_snapshot timeout true fuel s st =
     Done tt (with_trace st [LogLookingAt (snapshot_id s);
                             LogDeleting (snapshot_id s) (midnight d)])).
Proof.
  split.
  - cbv zeta.
    pose proof (process_snapshots_dry_run os_client timeout fuel) as Hinv.
    unfold quiet in Hinv.
    destruct Hinv as (H1 & H2 & H3 & H4 & H5 & H6).
    repeat split; try assumption.
    intros st. rewrite process_snapshots_run.
    destruct (for_each_dry_run timeout fuel os_client
                (snapshots "available" os_client) (initial os_client))
      as (st' & _ & ->); [by repeat split|].
    by destruct (failure _).
  - intros s st v d Hv Hd Hgt.
    pose proof (process_snapshot_turn timeout true fuel s st) as Ht.
    destruct Ht; simplify_eq; (reflexivity || congruence).
Qed.

(** *** What a finished scan has done for each snapshot *)

Lemma turn_trace_extends dry_run s st o :
  turn dry_run s st o ->
  exists evs, trace (final_state o) = trace st ++ evs.
Proof. intros Ht. destruct Ht; simpl; by eexists. Qed.

(** The loop only ever adds to the trace. *)
Lemma for_each_trace_mono timeout dry_run fuel l st e :
  In e (trace st) ->
  In e (trace (final_state
                 (for_each l (process_snapshot timeout dry_run fuel) st))).
Proof.
  intros Hin.
  apply (for_each_invariant (fun st' => In e (trace st'))); [|exact Hin].
  intros s st0 o Hin0 Ht.
  destruct (turn_trace_extends _ _ _ _ Ht) as [evs ->].
  apply in_app_iff. by left.
Qed.

(** A turn takes the outside world to a state it can reach. *)
Lemma turn_reachable dry_run s st o :
  turn dry_run s st o -> reachable (world st) (world (final_state o)).
Proof.
  intros Ht.
  destruct Ht; simpl; try apply reach_here;
    match goal with
    | Hdel : delete_snapshot s (world st) = (_, ?w) |- _ =>
        pose proof (reach_delete (world st) s (world st) (reach_here _))
          as Hw; rewrite Hdel in Hw; simpl in Hw
    end;
    [exact Hw|by eapply reachable_trans..].
Qed.

(** When the loop reaches the end of the listing, every snapshot of the
    listing had its turn, in a state of the world reached from the one
    the loop started in; the turn ended normally, and what it logged is
    in the final trace. *)
Lemma for_each_done_turns timeout dry_run fuel l : forall st st',
  for_each l (process_snapshot timeout dry_run fuel) st = Done tt st' ->
  forall s, In s (items l) ->
  exists st0 st1,
    reachable (world st) (world st0) /\
    process_snapshot timeout dry_run fuel s st0 = Done tt st1 /\
    forall e, In e (trace st1) -> In e (trace st').
Proof.
  induction l as [|s0 rest IH|e]; intros st st' Hdone s Hin;
    [destruct Hin| |discriminate].
  rewrite for_each_yield in Hdone.
  pose proof (process_snapshot_turn timeout dry_run fuel s0 st) as Ht0.
  apply turn_reachable in Ht0.
  destruct (process_snapshot timeout dry_run fuel s0 st)
    as [[] st1|e st1|st1] eqn:Hturn; try discriminate.
  simpl in Ht0.
  destruct Hin as [<-|Hin].
  - exists st, st1. split; [apply reach_here|]. split; [exact Hturn|].
    intros e He.
    pose proof (for_each_trace_mono timeout dry_run fuel rest st1 e He) as Hm.
    by rewrite Hdone in Hm.
  - destruct (IH st1 st' Hdone s Hin) as (st0 & st2 & Hreach & Hrest).
    exists st0, st2. split; [by eapply reachable_trans|exact Hrest].
Qed.

Lemma count_In_pos p e tr : In e tr -> p e = true -> (0 < count p tr)%nat.
Proof.
  induction tr as [|e' tr IH]; simpl; [done|].
  intros [->|Hin] Hp; [rewrite Hp; lia|].
  specialize (IH Hin Hp). lia.
Qed.

(** C10. A dry run can fail: when the listing (which itself does not
    fail) holds a snapshot whose [expire_at] is present but is not an
    ISO date, [process_snapshots] with [dry_run] true logs the
    [ValueError] for it, counts it in [errors] and returns [False],
    without a single [delete_snapshot] call. *)
Theorem dry_run_fails_on_malformed_expire_at os_client timeout fuel s v :
  In s (items (snapshots "available" os_client)) ->
  failure (snapshots "available" os_client) = None ->
  metadata s !! "expire_at" = Some v ->
  Datetime.fromisoformat v = None ->
  exists st,
    process_snapshots os_client timeout true fuel = Done false st /\
    (0 < errors st)%nat /\
    In (LogFailed (snapshot_id s) ValueError) (trace st) /\
    count is_delete_call (trace st) = 0%nat.
Proof.
  intros Hin Hfail Hv Hd.
  pose proof (process_snapshots_errors_accounted os_client timeout true fuel)
    as Hacc.
  pose proof (process_snapshots_dry_run os_client timeout fuel)
    as (Hdel & _).
  revert Hacc Hdel. rewrite process_snapshots_run.
  destruct (for_each_dry_run timeout fuel os_client
              (snapshots "available" os_client) (initial os_client))
    as (st' & _ & Hrun); [by repeat split|].
  rewrite Hfail in Hrun. rewrite Hrun. simpl. intros Hacc Hdel.
  destruct (for_each_done_turns _ _ _ _ _ _ Hrun s Hin)
    as (st0 & st1 & _ & Hturn & Hsub).
  assert (Hlogged : In (LogFailed (snapshot_id s) ValueError) (trace st')).
  { apply Hsub.
    pose proof (process_snapshot_turn timeout true fuel s st0) as Ht.
    rewrite Hturn in Ht. inversion Ht; simplify_eq.
    simpl. rewrite in_app_iff. right. simpl. tauto. }
  assert (Hpos : (0 < errors st')%nat).
  { unfold errors_accounted in Hacc. simpl in Hacc.
    rewrite !count_app in Hacc. simpl in Hacc.
    pose proof (count_In_pos is_malformed _ _ Hlogged eq_refl). lia. }
  eexists. split; [|split; [|split]].
  - f_equal. apply Nat.eqb_neq. lia.
  - exact Hpos.
  - simpl. apply in_app_iff. by left.
  - exact Hdel.
Qed.

(** The turn spent on an expired snapshot, outside dry runs, once
    [delete_snapshot] has returned: the confirmation loop, started at
    the clock reading taken right after the deletion request. *)
Lemma look_at_confirming timeout fuel s st v d w :
  metadata s !! "expire_at" = Some v ->
  Datetime.fromisoformat v = Some d ->
  Datetime.gtb (utcnow (world st)) (midnight d) = true ->
  delete_snapshot s (world st) = (Returned, w) ->
  look_at timeout false fuel s st =
  attempts fuel timeout (monotonic w)
    (confirm (snapshot_id s) (midnight d))
    (with_trace (with_world st w)
       [LogLookingAt (snapshot_id s);
        LogDeleting (snapshot_id s) (midnight d);
        CallDelete s Returned]).
Proof.
  intros Hv Hd Hgt Hdel. unfold look_at.
  rewrite bind_emit, Hv. unfold date_fromisoformat. rewrite Hd.
  rewrite bind_ret, bind_observe, world_with_trace.
  fold (midnight d). rewrite Hgt, bind_emit. unfold negb.
  rewrite bind_run. unfold call_delete_snapshot.
  rewrite bind_interact, !world_with_trace, Hdel, bind_emit.
  cbn [fst snd]. unfold ret at 1. unfold Retrying. rewrite bind_observe.
  fold (confirm (snapshot_id s) (midnight d)).
  f_equal. state_eq.
Qed.


(** *** A listing that fails *)

(** The loop over a listing is the loop over the snapshots it yields,
    followed by the exception that ends the listing, if one does. *)
Lemma for_each_items (body : snapshot -> M W unit) l : forall st,
  for_each l body st =
  match for_each (of_list (items l)) body st with
  | Done _ st' =>
      match failure l with
      | None => Done tt st'
      | Some e => Raise (BackendError e) st'
      end
  | Raise e st' => Raise e st'
  | OutOfFuel st' => OutOfFuel st'
  end.
Proof.
  induction l as [|s rest IH|e]; intros st; [reflexivity| |reflexivity].
  simpl items. simpl of_list. simpl failure. rewrite !for_each_yield.
  destruct (body s st) as [[] st1|e st1|st1]; [apply IH|reflexivity..].
Qed.

Lemma for_each_no_summary timeout dry_run fuel l st :
  count is_summary (trace st) = 0%nat ->
  count is_summary
    (trace (final_state
              (for_each l (process_snapshot timeout dry_run fuel) st))) = 0%nat.
Proof.
  apply (for_each_invariant (fun st' => count is_summary (trace st') = 0%nat)).
  intros s st0 o H0 Ht. destruct Ht; simpl; count_events; lia.
Qed.

(** *** Termination of the confirmation loop *)

Section Termination.

Context `{!EnvLaws W}.

Lemma after_lookup_clock st i :
  monotonic (world st) <= monotonic (world (after_lookup st i).2).
Proof.
  unfold after_lookup.
  pose proof (monotonic_get_snapshot i (world st)) as Hm.
  by destruct (get_snapshot i (world st)).
Qed.

Lemma after_lookup_trace st i :
  trace (after_lookup st i).2 =
  trace st ++ [CallGet i (after_lookup st i).1].
Proof.
  unfold after_lookup. by destruct (get_snapshot i (world st)).
Qed.

Lemma after_sleep_clock st :
  monotonic (world st) + second <= monotonic (world (after_sleep st)).
Proof.
  unfold after_sleep.
  pose proof (random_range (world st)) as Hr.
  pose proof (monotonic_random (world st)) as Hm.
  destruct (random (world st)) as [r w]. simpl in *.
  pose proof (monotonic_sleep (1 * second + r * (2 - 1)) w). lia.
Qed.

Lemma after_sleep_trace st :
  exists d, second <= d <= 2 * second /\
            trace (after_sleep st) = trace st ++ [CallSleep d].
Proof.
  unfold after_sleep.
  pose proof (random_range (world st)) as Hr.
  destruct (random (world st)) as [r w]. simpl in *.
  eexists. split; [|reflexivity]. lia.
Qed.

(** With [k] attempts' worth of time left at most, the loop makes at
    most [k] lookups, whatever the fuel. *)
Lemma attempts_lookups_bounded max_delay start i expire_at :
  forall fuel (k : nat) st,
    (1 <= k)%nat ->
    max_delay * second - (monotonic (world st) - start) <=
      (Z.of_nat k - 1) * second ->
    exists evs,
      trace (final_state
               (attempts fuel max_delay start (confirm i expire_at) st)) =
      trace st ++ evs /\
      (count is_get_call evs <= k)%nat.
Proof.
  induction fuel as [|fuel IH]; intros k st Hk Hrem.
  - exists []. simpl. rewrite app_nil_r. split; [reflexivity|lia].
  - rewrite attempts_step.
    pose proof (after_lookup_clock st i) as Hclock.
    pose proof (after_lookup_trace st i) as Htrace.
    destruct (after_lookup st i) as [r st1]. simpl in Hclock, Htrace.
    destruct (still_there r).
    + unfold stop_after_delay.
      destruct (Z.leb_spec (max_delay * second)
                  (monotonic (world st1) - start)) as [Hstop|Hgo].
      * exists [CallGet i r]. simpl. split; [exact Htrace|lia].
      * pose proof (after_sleep_clock st1) as Hclock2.
        destruct (after_sleep_trace st1) as (d & _ & Htrace2).
        destruct k as [|[|k]]; [lia|lia|].
        destruct (IH (S k) (after_sleep st1)) as (evs & Hev & Hcount);
          [lia|lia|].
        exists ([CallGet i r; CallSleep d] ++ evs). split.
        -- rewrite Hev, Htrace2, Htrace. by rewrite <- !app_assoc.
        -- simpl. simpl in Hcount. lia.
    + exists [CallGet i r; LogDeleted i expire_at]. simpl. split.
      * rewrite Htrace. by rewrite <- app_assoc.
      * lia.
Qed.

(** With as much fuel as there is time left, counted in attempts, the
    loop comes to an end. *)
Lemma attempts_terminates max_delay start i expire_at :
  forall fuel st,
    (1 <= fuel)%nat ->
    max_delay * second - (monotonic (world st) - start) <=
      (Z.of_nat fuel - 1) * second ->
    forall st',
      attempts fuel max_delay start (confirm i expire_at) st <>
      OutOfFuel st'.
Proof.
  induction fuel as [|fuel IH]; intros st Hk Hrem st'; [lia|].
  rewrite attempts_step.
  pose proof (after_lookup_clock st i) as Hclock.
  destruct (after_lookup st i) as [r st1]. simpl in Hclock.
  destruct (still_there r); [|discriminate].
  unfold stop_after_delay.
  destruct (Z.leb_spec (max_delay * second)
              (monotonic (world st1) - start)) as [Hstop|Hgo];
    [discriminate|].
  pose proof (after_sleep_clock st1) as Hclock2.
  unfold second in *. apply IH; lia.
Qed.

Lemma enough_fuel_covers timeout fuel :
  (enough_fuel timeout <= fuel)%nat ->
  (1 <= fuel)%nat /\ timeout * second <= (Z.of_nat fuel - 1) * second.
Proof. unfold enough_fuel, second. lia. Qed.

(** With enough fuel for its timeout, a turn of the loop comes to an
    end. *)
Lemma process_snapshot_terminates timeout dry_run fuel s st :
  (enough_fuel timeout <= fuel)%nat ->
  exists st', process_snapshot timeout dry_run fuel s st = Done tt st'.
Proof.
  intros [Hfuel Htime]%enough_fuel_covers.
  pose proof (process_snapshot_turn timeout dry_run fuel s st) as Ht.
  destruct (process_snapshot timeout dry_run fuel s st)
    as [[] st1|e st1|st1] eqn:Hturn; [by eexists|inversion Ht|].
  exfalso. inversion Ht; subst.
  unfold process_snapshot, try_except in Hturn.
  erewrite look_at_confirming in Hturn by eassumption.
  match type of Hturn with
  | context [attempts fuel timeout ?t0 ?body ?st0] =>
      pose proof (attempts_terminates timeout t0 (snapshot_id s)
                    (midnight d) fuel st0 Hfuel) as Hterm;
      destruct (attempts fuel timeout t0 body st0) as [[] st2|e st2|st2]
  end; try discriminate.
  simpl in Hterm. apply (Hterm ltac:(lia) st2). reflexivity.
Qed.

(** With enough fuel the loop reaches the end of the listing, or the
    exception that ends it. *)
Lemma for_each_terminates timeout dry_run fuel l :
  (enough_fuel timeout <= fuel)%nat ->
  forall st,
    exists st',
      for_each l (process_snapshot timeout dry_run fuel) st =
      match failure l with
      | None => Done tt st'
      | Some e => Raise (BackendError e) st'
      end.
Proof.
  intros Hfuel.
  induction l as [|s rest IH|e]; intros st; simpl failure;
    [by exists st| |by exists st].
  rewrite for_each_yield.
  destruct (process_snapshot_terminates timeout dry_run fuel s st Hfuel)
    as [st1 ->].
  apply IH.
Qed.

Lemma process_snapshots_terminates os_client timeout dry_run fuel :
  (enough_fuel timeout <= fuel)%nat ->
  match failure (snapshots "available" os_client) with
  | None =>
      exists b st,
        process_snapshots os_client timeout dry_run fuel = Done b st
  | Some e =>
      exists st,
        process_snapshots os_client timeout dry_run fuel =
        Raise (BackendError e) st
  end.
Proof.
  intros Hfuel. rewrite process_snapshots_run.
  destruct (for_each_terminates timeout dry_run fuel
              (snapshots "available" os_client) Hfuel (initial os_client))
    as [st' ->].
  destruct (failure _); by repeat eexists.
Qed.

End Termination.

(** C4, as the code has it. The listing is iterated outside every
    [try]: an exception raised while listing is not counted in
    [errors] and does not let the scan go on; it propagates out of
    [process_snapshots], which returns no boolean and logs no
    summary, after the snapshots yielded before the failure had their
    turns. *)
Theorem listing_failure_propagates os_client timeout dry_run fuel e :
  failure (snapshots "available" os_client) = Some e ->
  let o := process_snapshots os_client timeout dry_run fuel in
  (forall b st, o <> Done b st) /\
  o = match for_each (of_list (items (snapshots "available" os_client)))
              (process_snapshot timeout dry_run fuel) (initial os_client)
      with
      | Done _ st' => Raise (BackendError e) st'
      | Raise e' st' => Raise e' st'
      | OutOfFuel st' => OutOfFuel st'
      end /\
  count is_summary (trace (final_state o)) = 0%nat /\
  (EnvLaws W -> (enough_fuel timeout <= fuel)%nat ->
   exists st, o = Raise (BackendError e) st).
Proof.
  intros Hfail o. subst o.
  pose proof (for_each_no_summary timeout dry_run fuel
                (snapshots "available" os_client) (initial os_client)
                eq_refl) as Hsum.
  assert (Hterm : EnvLaws W -> (enough_fuel timeout <= fuel)%nat ->
            exists st, process_snapshots os_client timeout dry_run fuel =
                       Raise (BackendError e) st).
  { intros Hlaws Hfuel.
    pose proof (process_snapshots_terminates os_client timeout dry_run fuel
                  Hfuel) as Hterm.
    by rewrite Hfail in Hterm. }
  revert Hsum Hterm. rewrite process_snapshots_run.
  rewrite (for_each_items _ (snapshots "available" os_client)), Hfail.
  destruct (for_each (of_list _) _ _) as [[] st'|e' st'|st'];
    intros Hsum Hterm; repeat split; (discriminate || done).
Qed.




(** *** Further invariants of a run *)

Lemma count_not_found_polling i evs :
  polling i evs -> count is_not_found evs = 0%nat.
Proof.
  intros Hpoll. apply (count_polling is_not_found i evs Hpoll).
  intros e He. apply poll_event_cases in He as [(r & -> & Hr)|(d & ->)];
    [|reflexivity].
  by destruct r as [|[|what]].
Qed.

Ltac count_more :=
  count_events;
  repeat match goal with
  | Hp : polling ?i ?evs |- context [count is_not_found ?evs] =>
      rewrite (count_not_found_polling i evs Hp)
  end;
  simpl.

(** X1. The two counters are exactly what the log says: [errors] is the
    number of "Failed to delete snapshot" lines, and [destroyed_snapshot]
    is the number of "Deleted snapshot" lines, each of which answers one
    lookup that raised [ResourceNotFound]. *)
Theorem counters_match_the_log os_client timeout dry_run fuel :
  let st := final_state (process_snapshots os_client timeout dry_run fuel) in
  errors st = count is_failed (trace st) /\
  destroyed_snapshot st = count is_deleted (trace st) /\
  destroyed_snapshot st = count is_not_found (trace st).
Proof.
  apply (process_snapshots_invariant
           (fun st => errors st = count is_failed (trace st) /\
                      destroyed_snapshot st = count is_deleted (trace st) /\
                      destroyed_snapshot st = count is_not_found (trace st))).
  - intros s st o (He & Hd & Hn) Ht.
    destruct Ht as [| | | |? ? [|what]| | |]; simpl; count_more;
      repeat split; lia.
  - intros st d e (He & Hd & Hn). simpl. count_more. repeat split; lia.
  - repeat split; reflexivity.
Qed.

(** X2. Outside dry runs every "Deleting snapshot" line is followed by
    exactly one [delete_snapshot] call, so the two are as many; a request
    is never issued twice, and there are at most as many as snapshots
    listed. *)
Theorem one_delete_request_per_expired_snapshot os_client timeout fuel :
  let st := final_state (process_snapshots os_client timeout false fuel) in
  count is_delete_call (trace st) = count is_deleting (trace st) /\
  (count is_delete_call (trace st) <=
   length (items (snapshots "available" os_client)))%nat.
Proof.
  cbv zeta. split.
  - apply (process_snapshots_invariant
             (fun st => count is_delete_call (trace st) =
                        count is_deleting (trace st))).
    + intros s st o Heq Ht.
      destruct Ht; try discriminate; simpl; count_more; lia.
    + intros st d e Heq. simpl. count_more. lia.
    + reflexivity.
  - rewrite process_snapshots_run.
    assert (Hloop : forall l st,
      (count is_delete_call
         (trace (final_state
                   (for_each l (process_snapshot timeout false fuel) st))) <=
       count is_delete_call (trace st) + length (items l))%nat).
    { induction l as [|s rest IH|e]; intros st; [simpl; lia| |simpl; lia].
      rewrite for_each_yield.
      pose proof (process_snapshot_turn timeout false fuel s st) as Ht.
      assert (Hone : (count is_delete_call (trace (final_state
                        (process_snapshot timeout false fuel s st))) <=
                      count is_delete_call (trace st) + 1)%nat).
      { destruct Ht; simpl; count_more; lia. }
      destruct (process_snapshot timeout false fuel s st)
        as [[] st1|e st1|st1]; simpl in *;
        [specialize (IH st1)|..]; lia. }
    specialize (Hloop (snapshots "available" os_client) (initial os_client)).
    destruct (for_each _ _ _) as [[] st1|e st1|st1]; simpl in *;
      count_more; lia.
Qed.

(** *** Which snapshots a run touches, and in which order *)

(** A property of the state that the turn of every listed snapshot
    preserves holds when the loop stops. *)
Lemma for_each_listed_invariant (P : state W -> Prop) timeout dry_run fuel l :
  (forall s st o,
     In s (items l) -> P st -> turn dry_run s st o -> P (final_state o)) ->
  forall st, P st ->
  P (final_state (for_each l (process_snapshot timeout dry_run fuel) st)).
Proof.
  induction l as [|s rest IH|e]; intros Hstep st HP; [exact HP| |exact HP].
  rewrite for_each_yield.
  pose proof (process_snapshot_turn timeout dry_run fuel s st) as Ht.
  pose proof (Hstep s st _ (or_introl eq_refl) HP Ht) as HP'.
  destruct (process_snapshot timeout dry_run fuel s st) as [[] st'|e st'|st'];
    [|exact HP'|exact HP'].
  apply IH; [|exact HP'].
  intros s' st0 o Hin. apply Hstep. by right.
Qed.

(** The calls of a turn: deletion requests are for the snapshot of the
    turn, and lookups are for its id, after a request that returned. *)
Lemma turn_calls dry_run s st o :
  turn dry_run s st o ->
  exists evs,
    trace (final_state o) = trace st ++ evs /\
    (forall s' r, In (CallDelete s' r) evs -> s' = s) /\
    (forall i r, In (CallGet i r) evs ->
       i = snapshot_id s /\ In (CallDelete s Returned) evs).
Proof.
  intros Ht.
  destruct Ht; (eexists; split; [simpl; reflexivity|]); split;
    intros ? ? Hin; in_cases Hin; simplify_eq; try done;
    repeat match goal with
    | Hp : polling _ ?evs, Hi : In (CallGet _ _) ?evs |- _ =>
        apply (polling_In _ _ _ Hp) in Hi; simpl in Hi;
        apply andb_true_iff in Hi as [Hi _];
        apply String.eqb_eq in Hi; subst
    end;
    (split; [reflexivity|in_here]).
Qed.

(** X3. A run only asks the backend to delete snapshots that the listing
    yielded, and only looks up the id of a listed snapshot whose deletion
    request had returned: a request that raised is never polled. *)
Theorem only_listed_snapshots_are_touched os_client timeout dry_run fuel :
  let st := final_state (process_snapshots os_client timeout dry_run fuel) in
  (forall s r,
     In (CallDelete s r) (trace st) ->
     In s (items (snapshots "available" os_client))) /\
  (forall i r,
     In (CallGet i r) (trace st) ->
     exists s,
       In s (items (snapshots "available" os_client)) /\
       snapshot_id s = i /\
       In (CallDelete s Returned) (trace st)).
Proof.
  cbv zeta. rewrite process_snapshots_run.
  set (l := snapshots "available" os_client).
  set (P := fun st : state W =>
    (forall s r, In (CallDelete s r) (trace st) -> In s (items l)) /\
    (forall i r, In (CallGet i r) (trace st) ->
       exists s, In s (items l) /\ snapshot_id s = i /\
                 In (CallDelete s Returned) (trace st))).
  assert (Hloop : P (final_state
            (for_each l (process_snapshot timeout dry_run fuel)
               (initial os_client)))).
  { apply for_each_listed_invariant.
    - intros s st o Hin [Hdel Hget] Ht.
      destruct (turn_calls _ _ _ _ Ht) as (evs & Heq & Hdel' & Hget').
      unfold P. rewrite Heq. split.
      + intros s' r [Hold|Hnew]%in_app_iff; [by eapply Hdel|].
        by rewrite (Hdel' _ _ Hnew).
      + intros i r [Hold|Hnew]%in_app_iff.
        * destruct (Hget _ _ Hold) as (s' & Hs' & Hid & Hreq).
          exists s'. repeat split; [done..|]. apply in_app_iff. by left.
        * destruct (Hget' _ _ Hnew) as [-> Hreq].
          exists s. repeat split; [done|]. apply in_app_iff. by right.
    - split; intros ? ? []. }
  assert (Hsum : forall st, P st ->
            P (with_trace st
                 [LogProcessed (destroyed_snapshot st) (errors st)])).
  { intros st [Hdel Hget]. split; simpl.
    - intros s r [Hold|[Heq|[]]]%in_app_iff; [by eapply Hdel|discriminate].
    - intros i r [Hold|[Heq|[]]]%in_app_iff; [|discriminate].
      destruct (Hget _ _ Hold) as (s' & Hs' & Hid & Hreq).
      exists s'. repeat split; [done..|]. apply in_app_iff. by left. }
  destruct (for_each _ _ _) as [[] st|e st|st]; simpl in *;
    [by apply Hsum|exact Hloop..].
Qed.

Lemma looked_at_app tr tr' :
  looked_at (tr ++ tr') = looked_at tr ++ looked_at tr'.
Proof.
  induction tr as [|e tr IH]; [reflexivity|].
  destruct e; simpl; by rewrite IH.
Qed.

Lemma looked_at_polling i evs : polling i evs -> looked_at evs = [].
Proof.
  intros Hpoll. induction Hpoll as [|e evs He _ IH]; [reflexivity|].
  destruct e; try discriminate; exact IH.
Qed.

(** Every turn writes one "Looking at snapshot" line, for its snapshot. *)
Lemma turn_looked_at dry_run s st o :
  turn dry_run s st o ->
  looked_at (trace (final_state o)) = looked_at (trace st) ++ [snapshot_id s].
Proof.
  intros Ht.
  destruct Ht; simpl; rewrite !looked_at_app; simpl;
    rewrite ?looked_at_app; simpl;
    repeat match goal with
    | Hp : polling ?i ?evs |- context [looked_at ?evs] =>
        rewrite (looked_at_polling i evs Hp)
    end; reflexivity.
Qed.

Lemma for_each_looked_at timeout dry_run fuel l : forall st,
  let o := for_each l (process_snapshot timeout dry_run fuel) st in
  exists ids,
    looked_at (trace (final_state o)) = looked_at (trace st) ++ ids /\
    ids `prefix_of` map snapshot_id (items l) /\
    (forall st', o = Done tt st' -> ids = map snapshot_id (items l)).
Proof.
  induction l as [|s rest IH|e]; intros st; cbv zeta.
  - exists []. simpl. rewrite app_nil_r. by repeat split.
  - rewrite for_each_yield.
    pose proof (process_snapshot_turn timeout dry_run fuel s st) as Ht.
    apply turn_looked_at in Ht.
    destruct (process_snapshot timeout dry_run fuel s st)
      as [[] st1|e st1|st1]; simpl in Ht.
    + destruct (IH st1) as (ids & Hids & Hpre & Hdone).
      exists (snapshot_id s :: ids). simpl. split; [|split].
      * rewrite Hids, Ht. by rewrite <- app_assoc.
      * by apply prefix_cons.
      * intros st' Ho. by rewrite (Hdone st' Ho).
    + exists [snapshot_id s]. simpl. split; [exact Ht|]. split; [|discriminate].
      apply prefix_cons, prefix_nil.
    + exists [snapshot_id s]. simpl. split; [exact Ht|]. split; [|discriminate].
      apply prefix_cons, prefix_nil.
  - exists []. simpl. rewrite app_nil_r. split; [done|].
    split; [apply prefix_nil|discriminate].
Qed.

(** X4. The snapshots are looked at one after the other in the order of
    the listing, each once: the ids of the "Looking at snapshot" lines
    are a prefix of the ids listed, and all of them when the run
    returns. *)
Theorem snapshots_are_processed_in_listing_order
    os_client timeout dry_run fuel :
  let o := process_snapshots os_client timeout dry_run fuel in
  looked_at (trace (final_state o)) `prefix_of`
    map snapshot_id (items (snapshots "available" os_client)) /\
  (forall b st,
     o = Done b st ->
     looked_at (trace st) =
     map snapshot_id (items (snapshots "available" os_client))).
Proof.
  cbv zeta. rewrite process_snapshots_run.
  destruct (for_each_looked_at timeout dry_run fuel
              (snapshots "available" os_client) (initial os_client))
    as (ids & Hids & Hpre & Hdone).
  simpl in Hids.
  destruct (for_each _ _ _) as [[] st1|e st1|st1]; simpl in *.
  - rewrite looked_at_app, Hids. simpl. rewrite app_nil_r.
    split; [exact Hpre|].
    intros b st [= <- <-]. simpl. rewrite looked_at_app, Hids. simpl.
    rewrite app_nil_r. by apply (Hdone st1).
  - rewrite Hids. split; [exact Hpre|discriminate].
  - rewrite Hids. split; [exact Hpre|discriminate].
Qed.

(** *** Scans with nothing to do, and scans where everything works *)

Lemma for_each_count_mono p timeout dry_run fuel l st :
  (count p (trace st) <=
   count p (trace (final_state
                     (for_each l (process_snapshot timeout dry_run fuel)
                        st))))%nat.
Proof.
  apply (for_each_invariant
           (fun st' => (count p (trace st) <= count p (trace st'))%nat));
    [|lia].
  intros s st0 o Hle Ht.
  destruct (turn_trace_extends _ _ _ _ Ht) as [evs ->].
  rewrite count_app. lia.
Qed.

(** A turn that logs no "Deleting snapshot" line ends normally, calls
    nothing and destroys nothing; the only error it can count is a
    malformed [expire_at]. *)
Lemma turn_no_deleting dry_run s st o :
  turn dry_run s st o ->
  (exists st',
     o = Done tt st' /\
     count is_deleting (trace st') = count is_deleting (trace st) /\
     count is_delete_call (trace st') = count is_delete_call (trace st) /\
     count is_get_call (trace st') = count is_get_call (trace st) /\
     count is_sleep (trace st') = count is_sleep (trace st) /\
     count is_deleted (trace st') = count is_deleted (trace st) /\
     destroyed_snapshot st' = destroyed_snapshot st /\
     world st' = world st /\
     (errors st' - errors st =
      count is_malformed (trace st') - count is_malformed (trace st))%nat /\
     (errors st' - errors st =
      count is_failed (trace st') - count is_failed (trace st))%nat /\
     (errors st <= errors st')%nat /\
     (count is_malformed (trace st) <= count is_malformed (trace st'))%nat /\
     (count is_failed (trace st) <= count is_failed (trace st'))%nat) \/
  (count is_deleting (trace st) <
   count is_deleting (trace (final_state o)))%nat.
Proof.
  intros Ht.
  destruct Ht;
    [left|left|left|right|right|right|right|right];
    try (eexists; split; [reflexivity|]);
    simpl; count_events; repeat split; lia.
Qed.

Lemma for_each_no_deleting os_client timeout dry_run fuel l : forall st,
  failure l = None ->
  quiet os_client st ->
  errors st = count is_malformed (trace st) ->
  errors st = count is_failed (trace st) ->
  let o := for_each l (process_snapshot timeout dry_run fuel) st in
  count is_deleting (trace (final_state o)) = count is_deleting (trace st) ->
  exists st',
    o = Done tt st' /\ quiet os_client st' /\
    errors st' = count is_malformed (trace st') /\
    errors st' = count is_failed (trace st').
Proof.
  induction l as [|s rest IH|e]; intros st Hf Hq Hm He; cbv zeta;
    [intros _; by exists st| |discriminate].
  rewrite for_each_yield. simpl in Hf.
  pose proof (process_snapshot_turn timeout dry_run fuel s st) as Ht.
  apply turn_no_deleting in Ht.
  destruct Ht as [(st1 & Ho & Hd1 & Hc1 & Hg1 & Hs1 & Hx1 & Hn1 & Hw1 &
                   Hm1 & He1 & Hle1 & Hle2 & Hle3)|Hlt].
  - rewrite Ho. intros Hcount.
    destruct Hq as (H1 & H2 & H3 & H4 & H5 & H6).
    apply IH; [exact Hf| |lia|lia|lia].
    unfold quiet. repeat split; congruence.
  - pose proof (for_each_count_mono is_deleting timeout dry_run fuel rest)
      as Hmono.
    destruct (process_snapshot timeout dry_run fuel s st)
      as [[] st1|e st1|st1]; simpl in *; [|lia|lia].
    specialize (Hmono st1). lia.
Qed.

(** X5. A scan that logs no "Deleting snapshot" line is a no-op,
    whatever [dry_run] and whatever the clock showed: unless the listing
    fails, it ends normally with nothing destroyed, without a call to
    [delete_snapshot] or [get_snapshot] and without a sleep, and leaves
    the outside world as it found it; the only errors it can count are
    malformed [expire_at] values, and it returns [True] when there is
    none. *)
Theorem scan_that_announces_no_deletion_is_a_no_op
    os_client timeout dry_run fuel :
  failure (snapshots "available" os_client) = None ->
  let o := process_snapshots os_client timeout dry_run fuel in
  count is_deleting (trace (final_state o)) = 0%nat ->
  exists st,
    o = Done (Nat.eqb (errors st) 0) st /\
    destroyed_snapshot st = 0%nat /\
    errors st = count is_malformed (trace st) /\
    errors st = count is_failed (trace st) /\
    count is_delete_call (trace st) = 0%nat /\
    count is_get_call (trace st) = 0%nat /\
    count is_sleep (trace st) = 0%nat /\
    world st = os_client.
Proof.
  intros Hfail. cbv zeta. rewrite process_snapshots_run.
  pose proof (for_each_no_deleting os_client timeout dry_run fuel
                (snapshots "available" os_client) (initial os_client)
                Hfail) as Hloop.
  cbv zeta in Hloop. simpl in Hloop.
  intros Hcount.
  assert (Hnone :
    count is_deleting
      (trace (final_state
                (for_each (snapshots "available" os_client)
                   (process_snapshot timeout dry_run fuel)
                   (initial os_client)))) = 0%nat).
  { destruct (for_each _ _ _) as [[] st1|e st1|st1]; simpl in *;
      [rewrite count_app in Hcount; simpl in Hcount; lia
      |exact Hcount|exact Hcount]. }
  assert (Hq0 : quiet os_client (initial os_client)) by by repeat split.
  destruct (Hloop Hq0 eq_refl eq_refl Hnone)
    as (st' & Ho & (H1 & H2 & H3 & H4 & H5 & H6) & Hm & He).
  rewrite Ho.
  exists (with_trace st' [LogProcessed (destroyed_snapshot st') (errors st')]).
  split; [reflexivity|].
  simpl. count_events. rewrite H1, H2, H3.
  repeat split; (assumption || lia).
Qed.

(** The turn of an expired snapshot whose deletion is accepted and whose
    first lookup says "not found". *)
Lemma turn_destroys timeout fuel s st v d :
  metadata s !! "expire_at" = Some v ->
  Datetime.fromisoformat v = Some d ->
  Datetime.gtb (utcnow (world st)) (midnight d) = true ->
  (delete_snapshot s (world st)).1 = Returned ->
  (get_snapshot (snapshot_id s) (delete_snapshot s (world st)).2).1 =
    Raised ResourceNotFound ->
  process_snapshot timeout false (S fuel) s st =
  Done tt (with_destroyed (with_trace
    (with_world st
       (get_snapshot (snapshot_id s) (delete_snapshot s (world st)).2).2)
    [LogLookingAt (snapshot_id s);
     LogDeleting (snapshot_id s) (midnight d);
     CallDelete s Returned;
     CallGet (snapshot_id s) (Raised ResourceNotFound);
     LogDeleted (snapshot_id s) (midnight d)])).
Proof.
  intros Hv Hd Hgt Hdel Hget.
  destruct (delete_snapshot s (world st)) as [r w] eqn:Hdelete.
  cbn [fst snd] in *. subst r.
  unfold process_snapshot, try_except.
  rewrite (look_at_confirming timeout (S fuel) s st v d w Hv Hd Hgt Hdelete).
  rewrite attempts_step. unfold after_lookup. rewrite world_with_trace.
  simpl world.
  destruct (get_snapshot (snapshot_id s) w) as [r' w'].
  simpl in Hget. subst r'. simpl. f_equal. state_eq.
Qed.

(** X6. When every listed snapshot is expired, every deletion request is
    accepted and every first lookup already says "not found", a real run
    returns [True] having destroyed them all: one request and one lookup
    per snapshot, no sleep, no error. *)
Theorem scan_where_everything_works_destroys_all os_client timeout fuel :
  failure (snapshots "available" os_client) = None ->
  (forall s, In s (items (snapshots "available" os_client)) ->
     expired_for_good os_client s /\
     forall w, reachable os_client w ->
       (delete_snapshot s w).1 = Returned /\
       (get_snapshot (snapshot_id s) (delete_snapshot s w).2).1 =
         Raised ResourceNotFound) ->
  exists st,
    process_snapshots os_client timeout false (S fuel) = Done true st /\
    destroyed_snapshot st = length (items (snapshots "available" os_client)) /\
    errors st = 0%nat /\
    count is_delete_call (trace st) =
      length (items (snapshots "available" os_client)) /\
    count is_get_call (trace st) =
      length (items (snapshots "available" os_client)) /\
    count is_sleep (trace st) = 0%nat.
Proof.
  intros Hfail Hall. rewrite process_snapshots_run.
  set (good := fun (n : nat) (st : state W) =>
    reachable os_client (world st) /\
    destroyed_snapshot st = n /\ errors st = 0%nat /\
    count is_delete_call (trace st) = n /\
    count is_get_call (trace st) = n /\
    count is_sleep (trace st) = 0%nat).
  assert (Hloop : forall l n st,
    good n st -> failure l = None ->
    (forall s, In s (items l) ->
       In s (items (snapshots "available" os_client))) ->
    exists st',
      for_each l (process_snapshot timeout false (S fuel)) st = Done tt st' /\
      good (n + length (items l))%nat st').
  { induction l as [|s rest IH|e]; intros n st Hgood Hf Hsub;
      [exists st; split; [reflexivity|by rewrite Nat.add_0_r]| |discriminate].
    rewrite for_each_yield. simpl in Hf.
    destruct Hgood as (Hreach & Hd & He & Hc1 & Hc2 & Hc3).
    destruct (Hall s (Hsub s (or_introl eq_refl)))
      as [(v & d & Hv & Hdate & Hgt) Hworks].
    destruct (Hworks _ Hreach) as [Hdel Hget].
    rewrite (turn_destroys timeout fuel s st v d Hv Hdate (Hgt _ Hreach)
               Hdel Hget).
    destruct (IH (S n) (with_destroyed (with_trace (with_world st
                (get_snapshot (snapshot_id s)
                   (delete_snapshot s (world st)).2).2)
                [LogLookingAt (snapshot_id s);
                 LogDeleting (snapshot_id s) (midnight d);
                 CallDelete s Returned;
                 CallGet (snapshot_id s) (Raised ResourceNotFound);
                 LogDeleted (snapshot_id s) (midnight d)])))
      as (st' & Hrun & Hgood'); [|exact Hf|intros s' Hs'; apply Hsub; by right|].
    { unfold good. simpl. count_events.
      split; [by apply reach_get, reach_delete|].
      repeat split; lia. }
    exists st'. split; [exact Hrun|].
    simpl. by replace (n + S (length (items rest)))%nat
             with (S n + length (items rest))%nat by lia. }
  destruct (Hloop (snapshots "available" os_client) 0%nat (initial os_client))
    as (st' & -> & (_ & Hd & He & Hc1 & Hc2 & Hc3));
    [unfold good; simpl; repeat split; (reflexivity || apply reach_here)
    |exact Hfail|auto|].
  eexists. split; [by rewrite He|]. simpl in *. count_events.
  repeat split; lia.
Qed.

(** X7. A dry run announces what a real run would request: from the same
    state, the dry-run turn of a snapshot logs "Deleting snapshot" exactly
    when the real turn calls [delete_snapshot] for it. *)
Theorem dry_run_announces_what_a_real_run_requests
    timeout timeout' fuel fuel' s st :
  (exists expire_at,
     In (LogDeleting (snapshot_id s) expire_at)
        (new_events st (process_snapshot timeout true fuel s st))) <->
  (exists r,
     In (CallDelete s r)
        (new_events st (process_snapshot timeout' false fuel' s st))).
Proof.
  pose proof (process_snapshot_turn timeout true fuel s st) as Hdry.
  pose proof (process_snapshot_turn timeout' false fuel' s st) as Hreal.
  destruct Hdry; try discriminate;
    destruct Hreal; try discriminate; simplify_eq; try congruence;
    (erewrite !new_events_app by (simpl; reflexivity));
    (split;
     [ intros [x Hin]; in_cases Hin; try (eexists; in_here)
     | intros [x Hin]; in_cases Hin; try (eexists; in_here) ]).
Qed.

(** X8. No exception but the one that ends the listing leaves
    [process_snapshots]: when it raises, the listing failed with that
    exception; and it returns only when the listing ended normally. *)
Theorem only_a_listing_failure_escapes os_client timeout dry_run fuel :
  (forall e st,
     process_snapshots os_client timeout dry_run fuel = Raise e st ->
     exists e',
       e = BackendError e' /\
       failure (snapshots "available" os_client) = Some e') /\
  (forall b st,
     process_snapshots os_client timeout dry_run fuel = Done b st ->
     failure (snapshots "available" os_client) = None).
Proof.
  rewrite process_snapshots_run.
  assert (Hloop : forall l st,
    match for_each l (process_snapshot timeout dry_run fuel) st with
    | Done _ _ => failure l = None
    | Raise e _ => exists e', e = BackendError e' /\ failure l = Some e'
    | OutOfFuel _ => True
    end).
  { induction l as [|s rest IH|e]; intros st; [reflexivity| |by eexists].
    rewrite for_each_yield.
    pose proof (process_snapshot_turn timeout dry_run fuel s st) as Ht.
    destruct (process_snapshot timeout dry_run fuel s st)
      as [[] st1|e st1|st1]; [apply IH|inversion Ht|exact I]. }
  specialize (Hloop (snapshots "available" os_client) (initial os_client)).
  destruct (for_each _ _ _) as [[] st1|e st1|st1]; split;
    intros ? ? Heq; try discriminate; simplify_eq; done.
Qed.

(** *** The timing of the confirmation loop *)

Lemma attempts_raise_late max_delay start i expire_at :
  forall fuel st e st',
    attempts fuel max_delay start (confirm i expire_at) st = Raise e st' ->
    e = RetryError /\ max_delay * second <= monotonic (world st') - start.
Proof.
  induction fuel as [|fuel IH]; intros st e st'; [discriminate|].
  rewrite attempts_step.
  destruct (after_lookup st i) as [r st1].
  destruct (still_there r); [|discriminate].
  unfold stop_after_delay.
  destruct (Z.leb_spec (max_delay * second) (monotonic (world st1) - start))
    as [Hstop|Hgo]; [|apply IH].
  intros [= <- <-]. by split.
Qed.



Lemma after_sleep_trace_any st :
  exists d, trace (after_sleep st) = trace st ++ [CallSleep d].
Proof.
  unfold after_sleep. destruct (random (world st)) as [r w]. by eexists.
Qed.

(** The events of a confirmation loop, paced: there is exactly one wait
    between two lookups, none before the first and none after the last;
    and every wait has the property [Q] that all waits have. *)
Lemma attempts_paced (Q : Z -> Prop) max_delay start i expire_at :
  (forall st, exists d,
     Q d /\ trace (after_sleep st) = trace st ++ [CallSleep d]) ->
  forall fuel st,
    let o := attempts fuel max_delay start (confirm i expire_at) st in
    exists evs,
      trace (final_state o) = trace st ++ evs /\
      (forall d, In (CallSleep d) evs -> Q d) /\
      count is_timeout evs = 0%nat /\
      match o with
      | Done _ _ =>
          count is_get_call evs = S (count is_sleep evs) /\
          count is_deleted evs = 1%nat
      | Raise _ _ =>
          count is_get_call evs = S (count is_sleep evs) /\
          count is_deleted evs = 0%nat
      | OutOfFuel _ =>
          count is_get_call evs = count is_sleep evs /\
          count is_deleted evs = 0%nat
      end.
Proof.
  intros Hsleep.
  induction fuel as [|fuel IH]; intros st; cbv zeta.
  - exists []. simpl. rewrite app_nil_r. by repeat split.
  - rewrite attempts_step.
    assert (Htrace : trace (after_lookup st i).2 =
                     trace st ++ [CallGet i (after_lookup st i).1]).
    { unfold after_lookup. by destruct (get_snapshot i (world st)). }
    destruct (after_lookup st i) as [r st1]. simpl in Htrace.
    destruct (still_there r).
    + destruct (stop_after_delay _ _).
      * exists [CallGet i r]. simpl. split; [exact Htrace|].
        split; [by intros d [|[]]|]. by repeat split.
      * destruct (Hsleep st1) as (d & Hd & Htrace2).
        destruct (IH (after_sleep st1)) as (evs & Hev & Hq & Hto & Hcount).
        exists ([CallGet i r; CallSleep d] ++ evs).
        split; [|split; [|split]].
        -- rewrite Hev, Htrace2, Htrace. by rewrite <- !app_assoc.
        -- intros d' [Heq|[Heq|Hin]]; [discriminate|by simplify_eq|by apply Hq].
        -- simpl. exact Hto.
        -- destruct (attempts fuel _ _ _ _); simpl; destruct Hcount; split; lia.
    + exists [CallGet i r; LogDeleted i expire_at]. simpl. split.
      * rewrite Htrace. by rewrite <- app_assoc.
      * split; [by intros d [|[|[]]]|]. by repeat split.
Qed.

(** The turn that enters the confirmation loop, by the outcome of the
    loop. *)
Lemma process_snapshot_confirming timeout fuel s st v d w :
  metadata s !! "expire_at" = Some v ->
  Datetime.fromisoformat v = Some d ->
  Datetime.gtb (utcnow (world st)) (midnight d) = true ->
  delete_snapshot s (world st) = (Returned, w) ->
  process_snapshot timeout false fuel s st =
  match attempts fuel timeout (monotonic w)
          (confirm (snapshot_id s) (midnight d))
          (with_trace (with_world st w)
             [LogLookingAt (snapshot_id s);
              LogDeleting (snapshot_id s) (midnight d);
              CallDelete s Returned]) with
  | Done a st' => Done a st'
  | Raise e st' =>
      Done tt (with_error (with_trace st' [LogFailed (snapshot_id s) e]))
  | OutOfFuel st' => OutOfFuel st'
  end.
Proof.
  intros Hv Hd Hgt Hdel. unfold process_snapshot, try_except.
  rewrite (look_at_confirming timeout fuel s st v d w Hv Hd Hgt Hdel).
  by destruct (attempts _ _ _ _ _).
Qed.

(** A turn, paced. *)
Lemma turn_paced (Q : Z -> Prop) timeout dry_run fuel s st :
  (forall st, exists d,
     Q d /\ trace (after_sleep st) = trace st ++ [CallSleep d]) ->
  let o := process_snapshot timeout dry_run fuel s st in
  exists evs,
    trace (final_state o) = trace st ++ evs /\
    (forall d, In (CallSleep d) evs -> Q d) /\
    match o with
    | OutOfFuel _ => True
    | _ => count is_get_call evs =
           (count is_sleep evs + count is_deleted evs +
            count is_timeout evs)%nat
    end.
Proof.
  intros Hsleep. cbv zeta.
  pose proof (process_snapshot_turn timeout dry_run fuel s st) as Ht.
  remember (process_snapshot timeout dry_run fuel s st) as o eqn:Ho.
  assert (Hsimple : forall (a : unit) st' evs,
    trace st' = trace st ++ evs ->
    count is_get_call evs = 0%nat -> count is_sleep evs = 0%nat ->
    count is_deleted evs = 0%nat -> count is_timeout evs = 0%nat ->
    exists evs0,
      trace (final_state (Done a st')) = trace st ++ evs0 /\
      (forall d, In (CallSleep d) evs0 -> Q d) /\
      count is_get_call evs0 =
      (count is_sleep evs0 + count is_deleted evs0 + count is_timeout evs0)%nat).
  { intros a st' evs Htr Hg Hs Hd Hto. exists evs. split; [exact Htr|].
    split; [|lia].
    intros d Hin. apply (count_In_pos is_sleep) in Hin; [lia|reflexivity]. }
  destruct Ht as [| | | |v d e w| | |];
    [ by eapply Hsimple | by eapply Hsimple | by eapply Hsimple
    | by eapply Hsimple
    | eapply Hsimple; [reflexivity|by destruct e..]
    | | | ].
  all: subst dry_run; rewrite Ho.
  all: erewrite process_snapshot_confirming by eassumption.
  all: match goal with
    | |- context [attempts ?f ?t ?t0 (confirm ?i ?x) ?st0] =>
        destruct (attempts_paced Q t t0 i x Hsleep f st0)
          as (evs' & Hev & Hq & Hto & Hcount);
        cbv zeta in Hev, Hcount;
        destruct (attempts f t t0 (confirm i x) st0)
          as [[] st2|e2 st2|st2] eqn:Ha
    end.
  all: try (apply attempts_raise_late in Ha as [-> _]).
  all: simpl in Hev; simpl; rewrite Hev; rewrite <- ?app_assoc; simpl;
    eexists; (split; [reflexivity|]); split;
    try (intros d' Hin; in_cases Hin; by apply Hq);
    try exact I; simpl; rewrite ?count_app; simpl;
    destruct Hcount; lia.
Qed.

Lemma for_each_paced (Q : Z -> Prop) timeout dry_run fuel l :
  (forall st, exists d,
     Q d /\ trace (after_sleep st) = trace st ++ [CallSleep d]) ->
  forall st,
    let o := for_each l (process_snapshot timeout dry_run fuel) st in
    exists evs,
      trace (final_state o) = trace st ++ evs /\
      (forall d, In (CallSleep d) evs -> Q d) /\
      match o with
      | OutOfFuel _ => True
      | _ => count is_get_call evs =
             (count is_sleep evs + count is_deleted evs +
              count is_timeout evs)%nat
      end.
Proof.
  intros Hsleep.
  induction l as [|s rest IH|e]; intros st; cbv zeta.
  - exists []. simpl. rewrite app_nil_r. by repeat split.
  - rewrite for_each_yield.
    destruct (turn_paced Q timeout dry_run fuel s st Hsleep)
      as (evs & Hev & Hq & Hcount).
    pose proof (process_snapshot_turn timeout dry_run fuel s st) as Ht.
    destruct (process_snapshot timeout dry_run fuel s st)
      as [[] st1|e st1|st1]; [|inversion Ht|by exists evs].
    destruct (IH st1) as (evs' & Hev' & Hq' & Hcount').
    exists (evs ++ evs'). split; [|split].
    + simpl in Hev. rewrite Hev', Hev. by rewrite app_assoc.
    + intros d [Hin|Hin]%in_app_iff; [by apply Hq|by apply Hq'].
    + destruct (for_each rest _ st1); [|
      |exact I]; rewrite !count_app; lia.
  - exists []. simpl. rewrite app_nil_r. by repeat split.
Qed.

(** X11. In every run that comes to an end, by returning or by the
    failure of the listing, each confirmation makes exactly one more
    lookup than it sleeps: there is one wait between two lookups, none
    before the first lookup, and none after the lookup that confirmed the
    deletion or after the one that ran into the timeout. *)
Theorem one_wait_between_two_lookups os_client timeout dry_run fuel :
  let o := process_snapshots os_client timeout dry_run fuel in
  (forall st, o <> OutOfFuel st) ->
  count is_get_call (trace (final_state o)) =
  (count is_sleep (trace (final_state o)) +
   count is_deleted (trace (final_state o)) +
   count is_timeout (trace (final_state o)))%nat.
Proof.
  cbv zeta. rewrite process_snapshots_run.
  destruct (for_each_paced (fun _ => True) timeout dry_run fuel
              (snapshots "available" os_client)
              (fun st => match after_sleep_trace_any st with
                         | ex_intro _ d Hd => ex_intro _ d (conj I Hd)
                         end)
              (initial os_client)) as (evs & Hev & _ & Hcount).
  simpl in Hev.
  destruct (for_each _ _ _) as [[] st1|e st1|st1]; simpl in *;
    intros Hfin; [| |by destruct (Hfin st1)];
    rewrite Hev; rewrite ?count_app; simpl; lia.
Qed.

(** X12. Every wait of a run lasts at least one second and at most
    two: the confirmation never polls the backend more often than once a
    second. *)
Theorem every_wait_lasts_between_one_and_two_seconds
    `{!EnvLaws W} os_client timeout dry_run fuel d :
  In (CallSleep d)
     (trace (final_state (process_snapshots os_client timeout dry_run fuel))) ->
  1 * second <= d <= 2 * second.
Proof.
  rewrite process_snapshots_run.
  destruct (for_each_paced (fun d => 1 * second <= d <= 2 * second)
              timeout dry_run fuel (snapshots "available" os_client))
    with (st := initial os_client) as (evs & Hev & Hq & _).
  { intros st. destruct (after_sleep_trace st) as (d' & Hd' & Htr).
    exists d'. split; [unfold second in *; lia|exact Htr]. }
  simpl in Hev.
  destruct (for_each _ _ _) as [[] st1|e st1|st1]; simpl in *;
    rewrite Hev; rewrite ?in_app_iff; simpl; intros Hin;
    [destruct Hin as [Hin|[Heq|[]]]; [|discriminate]|..]; by apply Hq.
Qed.

(** *** How often a run polls the backend *)

Lemma turn_lookups_bounded `{!EnvLaws W} timeout dry_run fuel s st :
  let o := process_snapshot timeout dry_run fuel s st in
  exists evs,
    trace (final_state o) = trace st ++ evs /\
    (count is_get_call evs <=
     enough_fuel timeout * count is_delete_call evs)%nat.
Proof.
  cbv zeta.
  pose proof (process_snapshot_turn timeout dry_run fuel s st) as Ht.
  remember (process_snapshot timeout dry_run fuel s st) as o eqn:Ho.
  destruct Ht as [| | | |v d e w| | |];
    [ eexists; split; [simpl; reflexivity|simpl; lia]
    | eexists; split; [simpl; reflexivity|simpl; lia]
    | eexists; split; [simpl; reflexivity|simpl; lia]
    | eexists; split; [simpl; reflexivity|simpl; lia]
    | eexists; split; [simpl; reflexivity|destruct e; simpl; lia]
    | | | ].
  all: subst dry_run; rewrite Ho.
  all: erewrite process_snapshot_confirming by eassumption.
  all: match goal with
    | |- context [attempts ?f ?t ?t0 (confirm ?i ?x) ?st0] =>
        destruct (attempts_lookups_bounded t t0 i x f (enough_fuel t) st0)
          as (evs' & Hev & Hcount);
        [unfold enough_fuel; lia
        |simpl; unfold enough_fuel, second; lia|];
        destruct (attempts f t t0 (confirm i x) st0) as [[] st2|e2 st2|st2]
    end.
  all: simpl in Hev; simpl; rewrite Hev; rewrite <- ?app_assoc; simpl;
    eexists; (split; [reflexivity|]); unfold enough_fuel in *;
    simpl; rewrite ?count_app; simpl; nia.
Qed.

(** X16. A run polls the backend at most [wait_completion_timeout + 1]
    times for each deletion request it made (the clock never running
    backwards and a sleep lasting at least the time asked). *)
Theorem lookups_are_bounded_by_the_timeout
    `{!EnvLaws W} os_client timeout dry_run fuel :
  let st := final_state (process_snapshots os_client timeout dry_run fuel) in
  (count is_get_call (trace st) <=
   enough_fuel timeout * count is_delete_call (trace st))%nat.
Proof.
  cbv zeta. rewrite process_snapshots_run.
  assert (Hloop : forall l st,
    exists evs,
      trace (final_state
               (for_each l (process_snapshot timeout dry_run fuel) st)) =
      trace st ++ evs /\
      (count is_get_call evs <=
       enough_fuel timeout * count is_delete_call evs)%nat).
  { induction l as [|s rest IH|e]; intros st.
    - exists []. simpl. split; [by rewrite app_nil_r|lia].
    - rewrite for_each_yield.
      destruct (turn_lookups_bounded timeout dry_run fuel s st)
        as (evs & Hev & Hcount).
      destruct (process_snapshot timeout dry_run fuel s st)
        as [[] st1|e st1|st1]; [|exists evs; split; assumption..].
      destruct (IH st1) as (evs' & Hev' & Hcount').
      exists (evs ++ evs'). split.
      + simpl in Hev. rewrite Hev', Hev. by rewrite app_assoc.
      + rewrite !count_app. nia.
    - exists []. simpl. split; [by rewrite app_nil_r|lia]. }
  destruct (Hloop (snapshots "available" os_client) (initial os_client))
    as (evs & Hev & Hcount).
  simpl in Hev.
  destruct (for_each _ _ _) as [[] st1|e st1|st1]; simpl in *;
    rewrite Hev; rewrite ?count_app; simpl; nia.
Qed.

(** *** The confirmation loop, in terms of the storage client and the clock *)






End Properties.

(** ** Concrete runs against the scripted environment *)

Lemma june_first_valid : Datetime.valid_datetime Fake.june_first.
Proof.
  unfold Datetime.valid_datetime. simpl.
  repeat split; (reflexivity || lia).
Qed.

(** No call on the scripted client moves its wall clock. *)
Lemma fake_reachable_now (c w : Fake.fake) :
  reachable c w -> Fake.fake_now w = Fake.fake_now c.
Proof.
  intros Hreach. induction Hreach; simpl; auto.
Qed.

Lemma fake_expired_for_good l :
  expired_for_good (Fake.client l) Fake.expired.
Proof.
  exists "2020-01-01"%string, (Datetime.Date 2020 1 1).
  split; [reflexivity|]. split; [reflexivity|].
  intros w Hreach. simpl.
  by rewrite (fake_reachable_now _ _ Hreach).
Qed.

(** At 2021-06-01T00:00:00Z a snapshot that expired on 2020-01-01 is sent
    to the backend for deletion, and a snapshot that expires on 2021-06-01
    is kept. *)
Lemma expired_iff_past_midnight_witness :
  let st := initial (Fake.client Exhausted) in
  (exists r,
     In (CallDelete Fake.expired r)
        (new_events st (process_snapshot 3 false 4 Fake.expired st))) /\
  process_snapshot 3 false 4 Fake.today st =
  Done tt (with_trace st [LogLookingAt "today";
                          LogKeeping "today" Fake.june_first]) /\
  process_snapshot 3 false 4 Fake.nok st =
  Done tt (with_error
             (with_trace st
                [LogLookingAt "nok";
                 LogDeleting "nok" (midnight (Datetime.Date 2020 1 1));
                 CallDelete Fake.nok (Raised (BackendFailure "Exception"));
                 LogFailed "nok"
                   (BackendError (BackendFailure "Exception"))])).
Proof.
  intros st. split; [|split].
  - destruct (expired_iff_past_midnight (H:=Fake.fake_env)
                3 false 4 Fake.expired st
                "2020-01-01" (Datetime.Date 2020 1 1)
                eq_refl eq_refl june_first_valid) as (_ & _ & Hdel & _).
    apply Hdel. split; [reflexivity|]. vm_compute. reflexivity.
  - apply (expired_iff_past_midnight (H:=Fake.fake_env)
             3 false 4 Fake.today st
             "2021-06-01" (Datetime.Date 2021 6 1)
             eq_refl eq_refl june_first_valid).
    reflexivity.
  - destruct (expired_iff_past_midnight (H:=Fake.fake_env)
                3 false 4 Fake.nok st
                "2020-01-01" (Datetime.Date 2020 1 1)
                eq_refl eq_refl june_first_valid)
      as (_ & _ & _ & _ & Hreq & _).
    destruct (Hreq eq_refl) as (_ & _ & _ & Hraised);
      [vm_compute; reflexivity|].
    apply (Hraised (BackendFailure "Exception")). reflexivity.
Defined.

(** A manual snapshot is left alone. *)
Lemma no_expire_at_is_left_alone_witness :
  let st := initial (Fake.client Exhausted) in
  process_snapshot 3 false 4 Fake.manual st =
  Done tt (with_trace st [LogLookingAt "manual"]).
Proof.
  intros st.
  apply (no_expire_at_is_left_alone (H:=Fake.fake_env)
           3 false 4 Fake.manual eq_refl).
Defined.

(** The run of the test suite with one failing deletion returns [False]. *)
Lemma returns_true_iff_no_errors_witness :
  exists st,
    process_snapshots (Fake.client (of_list [Fake.expired; Fake.nok]))
      3 false 4 = Done false st /\
    errors st <> 0%nat.
Proof.
  eexists. split; [vm_compute; reflexivity|].
  intros Hzero.
  eapply (returns_true_iff_no_errors (H:=Fake.fake_env)
            (Fake.client (of_list [Fake.expired; Fake.nok])) 3 false 4 false)
    in Hzero; [discriminate|].
  vm_compute. reflexivity.
Defined.

(** A dry run over a garbled [expire_at] returns [False]. *)
Lemma dry_run_fails_on_malformed_expire_at_witness :
  exists st,
    process_snapshots (Fake.client (of_list [Fake.expired; Fake.garbled]))
      3 true 0 = Done false st /\
    (0 < errors st)%nat /\
    In (LogFailed "garbled" ValueError) (trace st) /\
    count is_delete_call (trace st) = 0%nat.
Proof.
  apply (dry_run_fails_on_malformed_expire_at (H:=Fake.fake_env)
           (Fake.client (of_list [Fake.expired; Fake.garbled])) 3 0
           Fake.garbled "next week").
  - simpl. tauto.
  - reflexivity.
  - reflexivity.
  - reflexivity.
Defined.

(** A listing that fails after one snapshot: the exception comes out of
    [process_snapshots]. *)
Lemma listing_failure_propagates_witness :
  exists st,
    process_snapshots
      (Fake.client (failing_after [Fake.expired] (BackendFailure "boom")))
      3 false 4 = Raise (BackendError (BackendFailure "boom")) st.
Proof.
  apply (listing_failure_propagates (H:=Fake.fake_env)
           (Fake.client (failing_after [Fake.expired] (BackendFailure "boom")))
           3 false 4 (BackendFailure "boom") eq_refl).
  - exact fake_laws.
  - vm_compute. lia.
Defined.




(** A failure of the listing is not turned into a counted error: no
    boolean is returned, and [errors] is still zero when the exception
    leaves [process_snapshots]. *)
Lemma listing_failure_is_not_counted :
  let o := process_snapshots
             (Fake.client
                (failing_after [Fake.expired] (BackendFailure "boom")))
             3 false 4 in
  (exists st, o = Raise (BackendError (BackendFailure "boom")) st /\
              errors st = 0%nat) /\
  ~ (exists b st, o = Done b st).
Proof.
  vm_compute. split.
  - eexists. split; reflexivity.
  - intros (b & st & Heq). discriminate.
Qed.

(** In a dry run the expired snapshot only gets its two log lines. *)
Lemma dry_run_deletes_nothing_witness :
  let st := initial (Fake.client Exhausted) in
  process_snapshot 3 true 0 Fake.expired st =
  Done tt (with_trace st
             [LogLookingAt "expired";
              LogDeleting "expired" (midnight (Datetime.Date 2020 1 1))]).
Proof.
  intros st.
  destruct (dry_run_deletes_nothing (H:=Fake.fake_env)
              (Fake.client Exhausted) 3 0) as [_ Hturn].
  apply (Hturn Fake.expired st "2020-01-01"%string (Datetime.Date 2020 1 1));
    reflexivity.
Defined.

(** The scenarios of the test suite, run against the scripted client at
    2021-06-01T00:00:00Z with a timeout of three seconds. *)

Example manual_snapshot_is_skipped :
  summary (process_snapshots (Fake.client (of_list [Fake.manual])) 3 false 4)
  = (Some true, 0%nat, 0%nat).
Proof. vm_compute. reflexivity. Qed.

Example expired_snapshot_is_destroyed :
  summary (process_snapshots (Fake.client (of_list [Fake.expired])) 3 false 4)
  = (Some true, 1%nat, 0%nat).
Proof. vm_compute. reflexivity. Qed.

Example future_snapshot_is_kept :
  summary (process_snapshots (Fake.client (of_list [Fake.future])) 3 false 4)
  = (Some true, 0%nat, 0%nat).
Proof. vm_compute. reflexivity. Qed.

Example dry_run_destroys_nothing :
  summary (process_snapshots (Fake.client (of_list [Fake.expired])) 3 true 4)
  = (Some true, 0%nat, 0%nat).
Proof. vm_compute. reflexivity. Qed.

Example failed_deletion_is_counted :
  summary (process_snapshots
             (Fake.client (of_list [Fake.expired; Fake.nok; Fake.expired]))
             3 false 4)
  = (Some false, 2%nat, 1%nat).
Proof. vm_compute. reflexivity. Qed.

Example unconfirmed_deletion_is_counted :
  summary (process_snapshots
             (Fake.client (of_list [Fake.stuck; Fake.expired])) 3 false 4)
  = (Some false, 1%nat, 1%nat).
Proof. vm_compute. reflexivity. Qed.

Example too_little_fuel_is_reported :
  summary (process_snapshots
             (Fake.client (of_list [Fake.stuck; Fake.expired])) 3 false 2)
  = (None, 0%nat, 0%nat).
Proof. vm_compute. reflexivity. Qed.

(** ** The command line entry point *)

Section CliProperties.

Context {W : Type} `{Env W}.

Lemma all_false_iff (results : list bool) :
  Cli.all results = false <-> In false results.
Proof.
  unfold Cli.all. induction results as [|[] results IH]; simpl.
  - split; [discriminate|intros []].
  - rewrite IH. split; [by right|by intros [|]].
  - split; [by left|reflexivity].
Qed.

(** The driver hands back the booleans of the projects whose scan
    returned, in order. *)
Lemma run_on_all_projects_results session pool_size timeout dry_run fuel :
  forall results,
    Cli.run_on_all_projects session
      (fun project t dry => process_snapshots project t dry fuel)
      pool_size timeout dry_run = Some results ->
    Forall2 (fun project b =>
               exists st,
                 process_snapshots project timeout dry_run fuel = Done b st)
            session results.
Proof.
  induction session as [|project session IH]; intros results; simpl.
  - intros [= <-]. constructor.
  - destruct (process_snapshots project timeout dry_run fuel)
      as [b st| |] eqn:Hrun; try discriminate.
    destruct (Cli.run_on_all_projects session _ pool_size timeout dry_run)
      as [rest|]; try discriminate.
    intros [= <-]. constructor; [by exists st|by apply IH].
Qed.

Lemma run_on_all_projects_returns session pool_size timeout dry_run fuel :
  Forall (fun project =>
            exists b st,
              process_snapshots project timeout dry_run fuel = Done b st)
         session ->
  exists results,
    Cli.run_on_all_projects session
      (fun project t dry => process_snapshots project t dry fuel)
      pool_size timeout dry_run = Some results.
Proof.
  induction 1 as [|project session (b & st & Hrun) _ [rest IH]]; simpl.
  - by eexists.
  - rewrite Hrun, IH. by eexists.
Qed.

(** X13. When the scan of every project returns, [cli] exits with status
    1 exactly when the scan of some project counted an error, and returns
    normally otherwise; with no project at all it returns normally. *)
Theorem cli_exits_with_1_iff_some_project_failed (a : Cli.args) fuel :
  Forall (fun project =>
            exists b st,
              process_snapshots project (Cli.wait_completion_timeout a)
                (Cli.dry_run a) fuel = Done b st)
         (Cli.os_client a) ->
  (Cli.cli a fuel = Cli.SysExit 1 <->
   exists project,
     In project (Cli.os_client a) /\
     errors (final_state
               (process_snapshots project (Cli.wait_completion_timeout a)
                  (Cli.dry_run a) fuel)) <> 0%nat) /\
  (Cli.cli a fuel = Cli.Returns <->
   forall project,
     In project (Cli.os_client a) ->
     errors (final_state
               (process_snapshots project (Cli.wait_completion_timeout a)
                  (Cli.dry_run a) fuel)) = 0%nat) /\
  (Cli.os_client a = [] -> Cli.cli a fuel = Cli.Returns).
Proof.
  intros Hall.
  destruct (run_on_all_projects_returns _ (Cli.pool_size a) _ _ _ Hall)
    as [results Hres].
  pose proof (run_on_all_projects_results _ _ _ _ _ _ Hres) as Hruns.
  assert (Hfalse : In false results <->
    exists project,
      In project (Cli.os_client a) /\
      errors (final_state
                (process_snapshots project (Cli.wait_completion_timeout a)
                   (Cli.dry_run a) fuel)) <> 0%nat).
  { clear Hres Hall. induction Hruns as [|project b session rest [st Hrun] _ IH].
    - split; [intros []|intros (? & [] & _)].
    - assert (Hb : b = Nat.eqb (errors st) 0).
      { revert Hrun. rewrite process_snapshots_run.
        destruct (for_each _ _ _) as [[] st1|e st1|st1]; try discriminate.
        by intros [= <- <-]. }
      simpl. rewrite IH. split.
      + intros [Hhere|(p & Hp & Herr)].
        * exists project. split; [by left|]. rewrite Hrun. simpl.
          apply Nat.eqb_neq. congruence.
        * exists p. split; [by right|exact Herr].
      + intros (p & [<-|Hp] & Herr).
        * left. rewrite Hrun in Herr. simpl in Herr.
          apply Nat.eqb_neq in Herr. congruence.
        * right. by exists p. }
  unfold Cli.cli. rewrite Hres.
  destruct (Cli.all results) eqn:Hallres; simpl.
  - assert (Hnone : ~ In false results).
    { intros Hin. apply all_false_iff in Hin. congruence. }
    split; [|split; [|reflexivity]].
    + split; [discriminate|]. intros Hex. by apply Hfalse in Hex.
    + split; [|reflexivity]. intros _ project Hin.
      destruct (Nat.eq_dec (errors (final_state (process_snapshots project
                  (Cli.wait_completion_timeout a) (Cli.dry_run a) fuel))) 0)
        as [Hz|Hnz]; [exact Hz|].
      destruct Hnone. apply Hfalse. by exists project.
  - apply all_false_iff in Hallres. apply Hfalse in Hallres as Hex.
    split; [|split].
    + by split.
    + split; [discriminate|]. intros Hzero.
      destruct Hex as (p & Hp & Herr). by destruct (Herr (Hzero p Hp)).
    + intros Hempty. destruct Hex as (p & Hp & _).
      rewrite Hempty in Hp. destruct Hp.
Qed.

End CliProperties.

(** ** Reading back a date written in ISO form *)

Lemma digit_digit_char n : Datetime.digit (digit_char n) = Some (n mod 10).
Proof.
  unfold digit_char. pose proof (Z.mod_pos_bound n 10 eq_refl) as Hk.
  remember (n mod 10) as k eqn:Ek. clear Ek.
  assert (Hcases : k = 0 \/ k = 1 \/ k = 2 \/ k = 3 \/ k = 4 \/ k = 5 \/
                   k = 6 \/ k = 7 \/ k = 8 \/ k = 9) by lia.
  repeat (destruct Hcases as [->|Hcases]; [reflexivity|]).
  by subst k.
Qed.

Lemma digit_char_digit c k : Datetime.digit c = Some k ->
  c = digit_char k /\ 0 <= k <= 9.
Proof.
  unfold Datetime.digit, digit_char.
  pose proof (Ascii.ascii_N_embedding c) as Hc.
  set (n := Ascii.N_of_ascii c) in *.
  destruct (Z.leb_spec 48 (Z.of_N n)); simpl; [|discriminate].
  destruct (Z.leb_spec (Z.of_N n) 57); simpl; [|discriminate].
  intros [= <-]. split; [|lia].
  rewrite Z.mod_small by lia.
  replace (48 + (Z.of_N n - 48)) with (Z.of_N n) by lia.
  by rewrite N2Z.id.
Qed.

(** The strings the parser accepts, and what it reads from them. *)
Lemma fromisoformat_iff_isoformat v d :
  Datetime.fromisoformat v = Some d <->
  Datetime.valid_date d /\ v = isoformat d.
Proof.
  split.
  - intros Hparse.
    split; [by eapply DatetimeFacts.fromisoformat_valid|].
    revert Hparse. unfold Datetime.fromisoformat, isoformat.
    rewrite <- (String.string_of_list_ascii_of_string v) at 2.
    destruct (String.list_ascii_of_string v) as [|y1 [|y2 [|y3 [|y4 [|s1
      [|m1 [|m2 [|s2 [|d1 [|d2 [|]]]]]]]]]]]; try discriminate.
    destruct (Ascii.eqb_spec s1 "-"%char) as [->|]; [|discriminate].
    destruct (Ascii.eqb_spec s2 "-"%char) as [->|]; [|discriminate].
    simpl.
    destruct (Datetime.digit y1) as [a1|] eqn:E1; [|discriminate].
    destruct (Datetime.digit y2) as [a2|] eqn:E2; [|discriminate].
    destruct (Datetime.digit y3) as [a3|] eqn:E3; [|discriminate].
    destruct (Datetime.digit y4) as [a4|] eqn:E4; [|discriminate].
    destruct (Datetime.digit m1) as [b1|] eqn:E5; [|discriminate].
    destruct (Datetime.digit m2) as [b2|] eqn:E6; [|discriminate].
    destruct (Datetime.digit d1) as [c1|] eqn:E7; [|discriminate].
    destruct (Datetime.digit d2) as [c2|] eqn:E8; [|discriminate].
    apply digit_char_digit in E1 as [-> ?], E2 as [-> ?], E3 as [-> ?],
      E4 as [-> ?], E5 as [-> ?], E6 as [-> ?], E7 as [-> ?], E8 as [-> ?].
    destruct (Datetime.check_date_fields _ _ _); [|discriminate].
    intros [= <-]. simpl.
    unfold digit_char.
    set (y := (((0 * 10 + a1) * 10 + a2) * 10 + a3) * 10 + a4).
    set (m := (0 * 10 + b1) * 10 + b2).
    set (dd := (0 * 10 + c1) * 10 + c2).
    replace ((y / 1000) mod 10) with (a1 mod 10)
      by (subst y; Z.div_mod_to_equations; lia).
    replace ((y / 100) mod 10) with (a2 mod 10)
      by (subst y; Z.div_mod_to_equations; lia).
    replace ((y / 10) mod 10) with (a3 mod 10)
      by (subst y; Z.div_mod_to_equations; lia).
    replace (y mod 10) with (a4 mod 10)
      by (subst y; Z.div_mod_to_equations; lia).
    replace ((m / 10) mod 10) with (b1 mod 10)
      by (subst m; Z.div_mod_to_equations; lia).
    replace (m mod 10) with (b2 mod 10)
      by (subst m; Z.div_mod_to_equations; lia).
    replace ((dd / 10) mod 10) with (c1 mod 10)
      by (subst dd; Z.div_mod_to_equations; lia).
    replace (dd mod 10) with (c2 mod 10)
      by (subst dd; Z.div_mod_to_equations; lia).
    reflexivity.
  - intros [Hvalid ->]. unfold Datetime.valid_date in Hvalid.
    pose proof (proj1 (DatetimeFacts.check_date_fields_spec _ _ _) Hvalid)
      as (Hy & Hm & Hd).
    assert (Hdim : Datetime.days_in_month (Datetime.year d)
                     (Datetime.month d) <= 31).
    { unfold Datetime.days_in_month.
      destruct (Datetime.month d =? 2);
        [destruct (Datetime.is_leap _)|destruct (_ || _)]; lia. }
    unfold Datetime.fromisoformat, isoformat.
    rewrite String.list_ascii_of_string_of_list_ascii.
    simpl. rewrite !digit_digit_char. simpl.
    replace ((((0 * 10 + (Datetime.year d / 1000) mod 10) * 10 +
              (Datetime.year d / 100) mod 10) * 10 +
             (Datetime.year d / 10) mod 10) * 10 + Datetime.year d mod 10)
      with (Datetime.year d) by (Z.div_mod_to_equations; lia).
    replace ((0 * 10 + (Datetime.month d / 10) mod 10) * 10 +
             Datetime.month d mod 10)
      with (Datetime.month d) by (Z.div_mod_to_equations; lia).
    replace ((0 * 10 + (Datetime.day d / 10) mod 10) * 10 +
             Datetime.day d mod 10)
      with (Datetime.day d) by (Z.div_mod_to_equations; lia).
    rewrite Hvalid. by destruct d.
Qed.

(** X14. The strings [date.fromisoformat] accepts are exactly the ISO
    forms [YYYY-MM-DD] of the valid calendar dates, as [date.isoformat()]
    writes them, and reading one back gives the date it was written
    from. *)
Theorem fromisoformat_reads_back_isoformat v d :
  Datetime.fromisoformat v = Some d <->
  Datetime.valid_date d /\ v = isoformat d.
Proof. apply fromisoformat_iff_isoformat. Qed.

Lemma is_letter_not_digit c : is_letter c = true -> Datetime.digit c = None.
Proof.
  unfold is_letter, Datetime.digit.
  set (n := Z.of_N (Ascii.N_of_ascii c)).
  intros Hl.
  destruct (Z.leb_spec 48 n), (Z.leb_spec n 57); simpl; try reflexivity.
  destruct (Z.leb_spec 65 n), (Z.leb_spec n 90), (Z.leb_spec 97 n),
    (Z.leb_spec n 122); simpl in Hl; (discriminate || lia).
Qed.

Lemma not_a_date_rejected v : not_a_date v -> Datetime.fromisoformat v = None.
Proof.
  unfold not_a_date, Datetime.fromisoformat.
  destruct v as [|y1 [|y2 [|y3 [|y4 [|s1
    [|m1 [|m2 [|s2 [|d1 [|d2 [|]]]]]]]]]]]; try reflexivity.
  cbn [String.list_ascii_of_string String.length].
  intros [Hlen|(c & Hin & Hc)].
  - destruct Hlen. simpl. tauto.
  - destruct (_ || _); [reflexivity|].
    apply is_letter_not_digit in Hc.
    simpl in Hin. simpl.
    destruct Hin as [<-|[<-|[<-|[<-|[]]]]];
      repeat match goal with
      | |- context [Datetime.digit ?x] =>
          first [rewrite Hc | destruct (Datetime.digit x)]
      end; reflexivity.
Qed.

(** X15. A snapshot whose [expire_at] no version of
    [date.fromisoformat] reads (its length is not 7, 8 or 10, or there
    is a letter where the year should be) costs exactly one error,
    whatever [dry_run] and the clock: its turn logs the [ValueError],
    adds one to [errors] and touches nothing else. *)
Theorem malformed_expire_at_costs_one_error
    {W : Type} `{Env W} timeout dry_run fuel s (st : state W) v :
  metadata s !! "expire_at" = Some v ->
  not_a_date v ->
  process_snapshot timeout dry_run fuel s st =
  Done tt (with_error (with_trace st
             [LogLookingAt (snapshot_id s);
              LogFailed (snapshot_id s) ValueError])).
Proof.
  intros Hv Hform.
  pose proof (not_a_date_rejected v Hform) as Hnone.
  pose proof (process_snapshot_turn timeout dry_run fuel s st) as Ht.
  destruct Ht; simplify_eq; reflexivity.
Qed.

(** ** More concrete runs against the scripted environment *)

(** No call on the scripted client changes which deletions it refuses
    and which snapshots it keeps finding. *)
Lemma fake_reachable_script (c w : Fake.fake) :
  reachable c w ->
  Fake.nok_snapshot w = Fake.nok_snapshot c /\
  Fake.nok_snapshot_deletion w = Fake.nok_snapshot_deletion c.
Proof.
  intros Hreach. induction Hreach; simpl; auto.
Qed.

Lemma only_listed_snapshots_are_touched_witness :
  In Fake.expired
     (items (snapshots "available"
               (Fake.client (of_list [Fake.manual; Fake.expired])))).
Proof.
  apply (proj1 (only_listed_snapshots_are_touched (H:=Fake.fake_env)
                  (Fake.client (of_list [Fake.manual; Fake.expired]))
                  3 false 4) Fake.expired Returned).
  vm_compute. tauto.
Defined.

Lemma snapshots_are_processed_in_listing_order_witness :
  exists st,
    process_snapshots (Fake.client (of_list [Fake.manual; Fake.expired]))
      3 false 4 = Done true st /\
    looked_at (trace st) = ["manual"; "expired"]%string.
Proof.
  eexists. split; [vm_compute; reflexivity|].
  apply (proj2 (snapshots_are_processed_in_listing_order (H:=Fake.fake_env)
                  (Fake.client (of_list [Fake.manual; Fake.expired]))
                  3 false 4) true).
  vm_compute. reflexivity.
Defined.

Lemma scan_that_announces_no_deletion_is_a_no_op_witness :
  let os_client :=
    Fake.client (of_list [Fake.manual; Fake.today; Fake.garbled;
                          Fake.future]) in
  exists st,
    process_snapshots os_client 3 false 0 = Done false st /\
    destroyed_snapshot st = 0%nat /\ errors st = 1%nat /\
    count is_delete_call (trace st) = 0%nat /\
    count is_get_call (trace st) = 0%nat /\
    count is_sleep (trace st) = 0%nat /\
    world st = os_client.
Proof.
  intros os_client.
  destruct (scan_that_announces_no_deletion_is_a_no_op (H:=Fake.fake_env)
              os_client 3 false 0)
    as (st & Ho & Hd & Hm & _ & Hc & Hg & Hs & Hw);
    [reflexivity|vm_compute; reflexivity|].
  exists st.
  assert (He : errors st = 1%nat).
  { change st with
      (final_state (Done (Nat.eqb (errors st) 0) st : outcome _ bool)).
    rewrite <- Ho. vm_compute. reflexivity. }
  split; [by rewrite Ho, He|].
  repeat split; assumption.
Defined.

Lemma scan_where_everything_works_destroys_all_witness :
  exists st,
    process_snapshots (Fake.client (of_list [Fake.expired; Fake.expired]))
      3 false 1 = Done true st /\
    destroyed_snapshot st = 2%nat.
Proof.
  destruct (scan_where_everything_works_destroys_all (H:=Fake.fake_env)
              (Fake.client (of_list [Fake.expired; Fake.expired])) 3 0)
    as (st & Hrun & Hd & _).
  - reflexivity.
  - intros s [<-|[<-|[]]]; (split; [apply fake_expired_for_good|]);
      intros w Hreach;
      destruct (fake_reachable_script _ _ Hreach) as [Hnok Hstuck];
      simpl; unfold Fake.fake_delete, Fake.fake_get; simpl;
      rewrite Hnok, Hstuck; split; reflexivity.
  - exists st. split; [exact Hrun|exact Hd].
Defined.

Lemma only_a_listing_failure_escapes_witness :
  failure (snapshots "available"
             (Fake.client (of_list [Fake.garbled; Fake.nok]))) = None.
Proof.
  eapply (proj2 (only_a_listing_failure_escapes (H:=Fake.fake_env)
                   (Fake.client (of_list [Fake.garbled; Fake.nok]))
                   3 false 4) false).
  vm_compute. reflexivity.
Defined.



Lemma one_wait_between_two_lookups_witness :
  let o := process_snapshots
             (Fake.client (of_list [Fake.stuck; Fake.expired])) 3 false 4 in
  count is_get_call (trace (final_state o)) =
  (count is_sleep (trace (final_state o)) +
   count is_deleted (trace (final_state o)) +
   count is_timeout (trace (final_state o)))%nat.
Proof.
  intros o.
  apply (one_wait_between_two_lookups (H:=Fake.fake_env)
           (Fake.client (of_list [Fake.stuck; Fake.expired])) 3 false 4).
  intros st. vm_compute. discriminate.
Defined.

Lemma every_wait_lasts_between_one_and_two_seconds_witness :
  1 * second <= 1000000 <= 2 * second.
Proof.
  apply (every_wait_lasts_between_one_and_two_seconds (H:=Fake.fake_env)
           (Fake.client (of_list [Fake.stuck])) 3 false 4 1000000).
  vm_compute. tauto.
Defined.

(** Two projects, one of which holds a snapshot whose deletion fails:
    exit status 1. *)
Lemma cli_exits_with_1_iff_some_project_failed_witness :
  Cli.cli (Cli.Args [Fake.client (of_list [Fake.expired]);
                     Fake.client (of_list [Fake.nok])] 10 3 false) 4
  = Cli.SysExit 1.
Proof.
  apply (cli_exits_with_1_iff_some_project_failed (H:=Fake.fake_env)
           (Cli.Args [Fake.client (of_list [Fake.expired]);
                      Fake.client (of_list [Fake.nok])] 10 3 false) 4).
  - repeat constructor; simpl; eexists; eexists; vm_compute; reflexivity.
  - exists (Fake.client (of_list [Fake.nok])). split; [simpl; tauto|].
    vm_compute. discriminate.
Defined.

Lemma malformed_expire_at_costs_one_error_witness :
  let st := initial (Fake.client Exhausted) in
  process_snapshot 3 false 4 Fake.garbled st =
  Done tt (with_error (with_trace st
             [LogLookingAt "garbled"; LogFailed "garbled" ValueError])).
Proof.
  intros st.
  apply (malformed_expire_at_costs_one_error (H:=Fake.fake_env)
           3 false 4 Fake.garbled st "next week"); [reflexivity|].
  right. exists "n"%char. split; [simpl; tauto|reflexivity].
Defined.

Lemma lookups_are_bounded_by_the_timeout_witness :
  let st := final_state
              (process_snapshots
                 (Fake.client (of_list [Fake.stuck; Fake.expired]))
                 3 false 10) in
  (count is_get_call (trace st) <= 4 * count is_delete_call (trace st))%nat.
Proof.
  intros st.
  apply (lookups_are_bounded_by_the_timeout (H:=Fake.fake_env)
           (EnvLaws0:=fake_laws)
           (Fake.client (of_list [Fake.stuck; Fake.expired])) 3 false 10).
Defined.
